(** * LinkedInScraper: session, convergence and pagination logic

    A shallow embedding of [src/linkedin-scraper.ts].  The class drives a
    browser through Playwright; every call that leaves the class (browser,
    page, extractor, clock) is recorded in a log and answered by an
    environment, so that the methods become functions on an explicit world. *)

From Stdlib Require Import ZArith List String Ascii Bool Lia Arith.
From Stdlib Require Import DecimalString DecimalPos DecimalNat DecimalZ.
Import ListNotations.

Local Open Scope string_scope.
Local Open Scope Z_scope.

(** ** Text *)

Module Text.

Definition is_digit (c : ascii) : bool :=
  let n := nat_of_ascii c in (48 <=? n)%nat && (n <=? 57)%nat.

Definition digit_val (c : ascii) : Z := Z.of_nat (nat_of_ascii c) - 48.

(** Leading white space as [parseInt] skips it (StrWhiteSpaceChar): the
    ASCII blanks and line ends, and the UTF-8 forms of U+00A0, U+1680,
    U+2000..U+200A, U+2028, U+2029, U+202F, U+205F, U+3000 and U+FEFF. *)
Fixpoint skip_ws (s : string) : string :=
  match s with
  | String c r =>
      let n := nat_of_ascii c in
      if ((9 <=? n) && (n <=? 13) || (n =? 32))%nat then skip_ws r
      else
        match r with
        | String c1 r1 =>
            let n1 := nat_of_ascii c1 in
            if ((n =? 194) && (n1 =? 160))%nat then skip_ws r1
            else
              match r1 with
              | String c2 r2 =>
                  let n2 := nat_of_ascii c2 in
                  if ((n =? 225) && (n1 =? 154) && (n2 =? 128)
                      || (n =? 226) && (n1 =? 128)
                         && ((128 <=? n2) && (n2 <=? 138)
                             || (n2 =? 168) || (n2 =? 169) || (n2 =? 175))
                      || (n =? 226) && (n1 =? 129) && (n2 =? 159)
                      || (n =? 227) && (n1 =? 128) && (n2 =? 128)
                      || (n =? 239) && (n1 =? 187) && (n2 =? 191))%nat
                  then skip_ws r2
                  else s
              | EmptyString => s
              end
        | EmptyString => s
        end
  | EmptyString => s
  end.

(** The value of the longest prefix of decimal digits, [None] when the
    prefix is empty. *)
Fixpoint digits_from (acc : option Z) (s : string) : option Z :=
  match s with
  | String c r =>
      if is_digit c
      then digits_from
             (Some (10 * match acc with Some a => a | None => 0 end
                    + digit_val c)) r
      else acc
  | EmptyString => acc
  end.

Definition of_Z (z : Z) : string := NilZero.string_of_int (Z.to_int z).

Definition of_nat (n : nat) : string := NilZero.string_of_uint (Nat.to_uint n).

Fixpoint zeros (n : nat) : string :=
  match n with
  | O => ""
  | S k => String "0" (zeros k)
  end.

(** [s.padStart(n, "0")] *)
Definition padStart0 (n : nat) (s : string) : string :=
  zeros (n - String.length s) ++ s.

Definition hex_digit (n : nat) : ascii :=
  if (n <? 10)%nat then ascii_of_nat (48 + n) else ascii_of_nat (55 + n).

Definition percent (c : ascii) : string :=
  let n := nat_of_ascii c in
  String "%" (String (hex_digit (n / 16)) (String (hex_digit (n mod 16)) "")).

Definition is_alnum (c : ascii) : bool :=
  let n := nat_of_ascii c in
  ((48 <=? n) && (n <=? 57) || (65 <=? n) && (n <=? 90)
   || (97 <=? n) && (n <=? 122))%nat.

Definition one_of (set : string) (c : ascii) : bool :=
  existsb (Ascii.eqb c) (list_ascii_of_string set).

(** [encodeURIComponent] on well-formed text, byte by byte of its UTF-8
    form: letters, digits and [-_.!~*'()] stay, the rest is escaped. *)
Fixpoint encodeURIComponent (s : string) : string :=
  match s with
  | String c r =>
      (if is_alnum c || one_of "-_.!~*'()" c then String c "" else percent c)
      ++ encodeURIComponent r
  | EmptyString => ""
  end.

(** The application/x-www-form-urlencoded byte serializer that
    [URLSearchParams] uses when the address is written out. *)
Fixpoint form_encode (s : string) : string :=
  match s with
  | String c r =>
      (if is_alnum c || one_of "*-._" c then String c ""
       else if Ascii.eqb c " " then "+" else percent c)
      ++ form_encode r
  | EmptyString => ""
  end.

End Text.

(** ** Numbers

    [parseInt] and [+] work on doubles.  The embedding keeps the integer
    itself; where the integer or the sum leaves the range in which doubles
    are exact, the text that the engine prints is taken from the
    environment (see [number_text]). *)

Inductive JsNumber : Type :=
| NaN
| Int (z : Z).

(** [parseInt(s, 10)] *)
Definition parseInt (s : string) : JsNumber :=
  let t := Text.skip_ws s in
  let '(neg, body) :=
    match t with
    | String "-" r => (true, r)
    | String "+" r => (false, r)
    | _ => (false, t)
    end in
  match Text.digits_from None body with
  | None => NaN
  | Some v => Int (if neg then - v else v)
  end.

Definition safe (z : Z) : bool := Z.abs z <=? 2 ^ 53.

(** ** Addresses: the [URL] object and its [searchParams] *)

Record URL : Type := mkURL {
  url_head : string;                    (* scheme, host and path *)
  searchParams : list (string * string);
  url_hash : string                     (* empty, or the fragment with its # *)
}.

Module SearchParams.

(** [get(name)]: the value of the first pair of that name, else null. *)
Fixpoint get (name : string) (ps : list (string * string)) : option string :=
  match ps with
  | [] => None
  | (k, v) :: r => if String.eqb k name then Some v else get name r
  end.

Definition drop (name : string) (ps : list (string * string)) :=
  filter (fun kv => negb (String.eqb (fst kv) name)) ps.

(** [set(name, value)]: the first pair of that name takes the value and
    the later ones go; without such a pair one is appended. *)
Fixpoint set (name value : string) (ps : list (string * string))
  : list (string * string) :=
  match ps with
  | [] => [(name, value)]
  | (k, v) :: r =>
      if String.eqb k name then (k, value) :: drop name r
      else (k, v) :: set name value r
  end.

Fixpoint serialize (ps : list (string * string)) : string :=
  match ps with
  | [] => ""
  | [(k, v)] => Text.form_encode k ++ "=" ++ Text.form_encode v
  | (k, v) :: r =>
      Text.form_encode k ++ "=" ++ Text.form_encode v ++ "&" ++ serialize r
  end.

End SearchParams.

(** [url.toString()] *)
Definition URL_toString (u : URL) : string :=
  url_head u
  ++ match searchParams u with
     | [] => ""
     | ps => "?" ++ SearchParams.serialize ps
     end
  ++ url_hash u.

(** [a || "0"] on a string-or-null. *)
Definition or_zero (v : option string) : string :=
  match v with
  | None => "0"
  | Some "" => "0"
  | Some s => s
  end.

(** ** Handles, calls and answers *)

Definition Browser := nat.

(** A page knows its context's browser; [context().browser()] can be null,
    hence the option. *)
Record Page : Type := mkPage {
  page_no : nat;
  page_browser : option Browser
}.

Record Cookie : Type := mkCookie {
  cookie_name : string;
  cookie_value : string;
  cookie_domain : string;
  cookie_path : string
}.

(** A record of the extractor, known here by its identifier only. *)
Definition Job := string.

Inductive Printed : Type :=
| LogText (s : string)
| LogTotal (totalJobs : nat)
| LogJobs (res : list Job)
| LogCache.

(** Everything the class asks of the outside. *)
Inductive Call : Type :=
| Console (x : Printed)
| Launch
| NewContext (b : Browser)
| AddCookies (b : Browser) (cs : list Cookie)
| NewPage (b : Browser)
| Goto (p : Page) (href : string) (waitUntil : option string)
| IsVisible (p : Page) (selector : string)
| Screenshot (p : Page) (path : string) (fullPage : bool)
| WaitForSelector (p : Page) (selector : string) (timeout : Z) (state : string)
| Count (p : Page) (selector : string)
| ScrollIntoView (p : Page) (selector : string)
| WaitForTimeout (p : Page) (ms : Z)
| ReadUrl (p : Page)
| Extract (p : Page)
| CloseBrowser (b : Browser)
| Now
| Sleep (ms : Z).

Inductive Kind : Type :=
| KConsole | KLaunch | KNewContext | KAddCookies | KNewPage | KGoto
| KIsVisible | KScreenshot | KWaitForSelector | KCount | KScroll
| KWaitForTimeout | KReadUrl | KExtract | KCloseBrowser | KNow | KSleep.

Definition kind_of (c : Call) : Kind :=
  match c with
  | Console _ => KConsole
  | Launch => KLaunch
  | NewContext _ => KNewContext
  | AddCookies _ _ => KAddCookies
  | NewPage _ => KNewPage
  | Goto _ _ _ => KGoto
  | IsVisible _ _ => KIsVisible
  | Screenshot _ _ _ => KScreenshot
  | WaitForSelector _ _ _ _ => KWaitForSelector
  | Count _ _ => KCount
  | ScrollIntoView _ _ => KScroll
  | WaitForTimeout _ _ => KWaitForTimeout
  | ReadUrl _ => KReadUrl
  | Extract _ => KExtract
  | CloseBrowser _ => KCloseBrowser
  | Now => KNow
  | Sleep _ => KSleep
  end.

Definition kind_code (k : Kind) : nat :=
  match k with
  | KConsole => 0 | KLaunch => 1 | KNewContext => 2 | KAddCookies => 3
  | KNewPage => 4 | KGoto => 5 | KIsVisible => 6 | KScreenshot => 7
  | KWaitForSelector => 8 | KCount => 9 | KScroll => 10
  | KWaitForTimeout => 11 | KReadUrl => 12 | KExtract => 13
  | KCloseBrowser => 14 | KNow => 15 | KSleep => 16
  end%nat.

Definition is_kind (k : Kind) (c : Call) : bool :=
  Nat.eqb (kind_code (kind_of c)) (kind_code k).

(** How many calls of a kind a log holds. *)
Definition seen (k : Kind) (l : list Call) : nat :=
  List.length (filter (is_kind k) l).

Inductive Error : Type :=
| JsError (message : string)        (* [new Error(message)] of the class *)
| Failure (code : nat)              (* a rejection that comes from outside *)
| RetryTimeout
| RetryExhausted (last : Error).

Inductive Answer (A : Type) : Type :=
| Resolve (a : A)
| Reject (e : Error).
Arguments Resolve {A} a.
Arguments Reject {A} e.

(** The outside: the answer to the n-th call of each kind.  Calls that
    resolve to nothing answer [None] on success. *)
Record Env : Type := mkEnv {
  env_unit : Call -> nat -> option Error;
  env_visible : nat -> Answer bool;
  env_count : nat -> Answer nat;
  env_extract : nat -> Answer (list Job);
  env_url : nat -> URL;
  env_now : nat -> Z;
  (* the text of the double [offset + size] outside the exact range *)
  env_inexact : Z -> Z -> string
}.

(** Constants of [./constants], which the class imports. *)
Record Constants : Type := mkConstants {
  LI_home : string;
  LI_jobsSearch : string;
  SEL_activeMenu : string;
  SEL_jobs : string;
  SEL_jobCardSkeletons : list string
}.

(** ** The world and its monad *)

(** The two fields of the class and the log of calls, latest first. *)
Record World : Type := mkWorld {
  _page : option Page;
  _screenshotCount : nat;
  log : list Call
}.

Definition fresh : World :=
  {| _page := None; _screenshotCount := 1; log := [] |}.

Inductive Outcome (A : Type) : Type :=
| Ok (a : A)
| Throw (e : Error)
| OutOfFuel.
Arguments Ok {A} a.
Arguments Throw {A} e.
Arguments OutOfFuel {A}.

Definition M (A : Type) : Type := World -> Outcome A * World.

Definition ret {A} (a : A) : M A := fun w => (Ok a, w).

Definition throw {A} (e : Error) : M A := fun w => (Throw e, w).

Definition bind {A B} (m : M A) (f : A -> M B) : M B :=
  fun w =>
    match m w with
    | (Ok a, w1) => f a w1
    | (Throw e, w1) => (Throw e, w1)
    | (OutOfFuel, w1) => (OutOfFuel, w1)
    end.

Declare Scope scraper_scope.
Delimit Scope scraper_scope with scraper.
Notation "x <- m ;; k" := (bind m (fun x => k))
  (at level 61, m at next level, right associativity) : scraper_scope.
Notation "m ;; k" := (bind m (fun _ => k))
  (at level 61, right associativity) : scraper_scope.
Local Open Scope scraper_scope.

Definition push (c : Call) (w : World) : World :=
  {| _page := _page w; _screenshotCount := _screenshotCount w;
     log := c :: log w |}.

Definition set_page (p : option Page) : M unit :=
  fun w => (Ok tt, {| _page := p; _screenshotCount := _screenshotCount w;
                      log := log w |}).

Definition bump_screenshotCount : M unit :=
  fun w => (Ok tt, {| _page := _page w;
                      _screenshotCount := S (_screenshotCount w);
                      log := log w |}).

(** A call whose answer nobody looks at. *)
Definition emit (c : Call) : M unit := fun w => (Ok tt, push c w).

Definition console (s : string) : M unit := emit (Console (LogText s)).

Inductive Promise (A : Type) : Type :=
| Fulfilled (a : A)
| Rejected (e : Error).
Arguments Fulfilled {A} a.
Arguments Rejected {A} e.

(** [!o] for an object [o]: every object is truthy, a promise too. *)
Definition not_object {A} (o : Promise A) : bool := false.

Record LoadResult : Type := mkLoadResult {
  success : bool;
  totalJobs : nat
}.

Inductive SearchResult : Type :=
| Undefined
| Jobs (l : list Job).

Record RetryConfig : Type := mkRetryConfig {
  maxAttempts : positive;
  delayMs : Z;
  timeout : Z
}.

(** ** The methods of [LinkedInScraper] *)

Section Scraper.

Variable K : Constants.
Variable E : Env.

(** An awaited call without a value: it is logged, then the environment
    says whether it rejects. *)
Definition call (c : Call) : M unit :=
  fun w =>
    match env_unit E c (seen (kind_of c) (log w)) with
    | None => (Ok tt, push c w)
    | Some e => (Throw e, push c w)
    end.

Definition ask {A} (c : Call) (answer : nat -> Answer A) : M A :=
  fun w =>
    match answer (seen (kind_of c) (log w)) with
    | Resolve a => (Ok a, push c w)
    | Reject e => (Throw e, push c w)
    end.

(** [chromium.launch], [newContext] and [newPage] hand out handles
    numbered by the launch and by the page. *)
Definition launch : M Browser :=
  fun w => bind (call Launch) (fun _ => ret (seen KLaunch (log w))) w.

Definition newPage (b : Browser) : M Page :=
  fun w =>
    bind (call (NewPage b))
         (fun _ => ret {| page_no := seen KNewPage (log w);
                          page_browser := Some b |}) w.

Definition goto (p : Page) (href : string) (waitUntil : option string)
  : M unit :=
  call (Goto p href waitUntil).

(** [page.url()], read through [new URL(...)]. *)
Definition page_url (p : Page) : M URL :=
  fun w => (Ok (env_url E (seen KReadUrl (log w))), push (ReadUrl p) w).

Definition getCount (p : Page) : M nat :=
  ask (Count p (SEL_jobs K)) (env_count E).

(** [Promise.allSettled]: every call is made, no answer is looked at. *)
Fixpoint allSettled (cs : list Call) : M unit :=
  match cs with
  | [] => ret tt
  | c :: r => emit c ;; allSettled r
  end.

Definition screenshot_path (n : nat) : string :=
  "screenshots/" ++ Text.padStart0 5 (Text.of_nat n) ++ "_page.png".

(** [_takeScreenshot(log)] *)
Definition _takeScreenshot (label : string) : M unit :=
  console ("📷 " ++ label) ;;
  (fun w =>
     match _page w with
     | Some p =>
         call (Screenshot p (screenshot_path (_screenshotCount w)) true) w
     | None => (Ok tt, w)
     end) ;;
  bump_screenshotCount.

(** [_isLoggedIn()]: an async method, so the caller holds a promise.  The
    visibility request leaves at once; its answer settles the promise. *)
Definition _isLoggedIn : M (Promise bool) :=
  fun w =>
    match _page w with
    | Some p =>
        (Ok match env_visible E (seen KIsVisible (log w)) with
            | Resolve b => Fulfilled b
            | Reject e => Rejected e
            end,
         push (IsVisible p (SEL_activeMenu K)) w)
    | None => (Ok (Fulfilled false), w)
    end.

(** The text of [offset + paginationSize] in the template string. *)
Definition number_text (offset : JsNumber) (paginationSize : Z) : string :=
  match offset with
  | NaN => "NaN"
  | Int z =>
      if safe z && safe paginationSize && safe (z + paginationSize)
      then Text.of_Z (z + paginationSize)
      else env_inexact E z paginationSize
  end.

(** Lines 31-33: the address that [_paginate] goes to from [url]. *)
Definition advance (url : URL) (paginationSize : Z) : URL :=
  let offset :=
    parseInt (or_zero (SearchParams.get "start" (searchParams url))) in
  {| url_head := url_head url;
     searchParams :=
       SearchParams.set "start" (number_text offset paginationSize)
                        (searchParams url);
     url_hash := url_hash url |}.

(** [_paginate(paginationSize = 25)] *)
Definition _paginate (paginationSize : Z) : M unit :=
  fun w =>
    match _page w with
    | None => throw (JsError "🔴 Failed to load page") w
    | Some p =>
        (url <- page_url p ;;
         goto p (URL_toString (advance url paginationSize)) (Some "load")) w
    end.

(** [initialize(liAtCookie)] *)
Definition initialize (liAtCookie : string) : M unit :=
  console "🟡 Connecting to a scraping browser" ;;
  browser <- launch ;;
  console "🟢 Connected, navigating..." ;;
  call (NewContext browser) ;;
  call (AddCookies browser
          [ {| cookie_name := "li_at"; cookie_value := liAtCookie;
               cookie_domain := ".linkedin.com"; cookie_path := "/" |} ]) ;;
  page <- newPage browser ;;
  set_page (Some page) ;;
  goto page (LI_home K) None ;;
  loggedIn <- _isLoggedIn ;;
  (if not_object loggedIn
   then _takeScreenshot "🔴 Authentication failed" ;;
        throw (JsError
                 "🔴 Authentication failed. Please check your li_at cookie.")
   else ret tt) ;;
  console "🟢 Successfully authenticated!" ;;
  _takeScreenshot "Home page".

(** Lines 97-109: scroll to the last item, wait, count again. *)
Fixpoint scrollLoop (fuel : nat) (p : Page) (count : nat) : M nat :=
  match fuel with
  | O => fun w => (OutOfFuel, w)
  | S f =>
      call (ScrollIntoView p (SEL_jobs K)) ;;
      call (WaitForTimeout p 200) ;;
      currentCount <- getCount p ;;
      if Nat.eqb currentCount count then ret count
      else scrollLoop f p currentCount
  end.

(** The operation that [_loadJobs] hands to [retry]. *)
Definition detect (fuel : nat) : M LoadResult :=
  fun w =>
    match _page w with
    | None => throw (JsError "🔴 Failed to load page") w
    | Some p =>
        (allSettled
           (map (fun selector => WaitForSelector p selector 3000 "detached")
                (SEL_jobCardSkeletons K)) ;;
         count <- getCount p ;;
         count' <- scrollLoop fuel p count ;;
         ret {| success := true; totalJobs := count' |}) w
    end.

Definition now : M Z :=
  fun w => (Ok (env_now E (seen KNow (log w))), push Now w).

(** Modelled from the spec: [retry] of [./utils], which is not among the
    sources.  The operation runs up to [maxAttempts] times with a wait of
    [delayMs] between attempts; once more than [timeout] has passed since
    the call began the call fails with a timeout, whatever attempts
    remain; the last failure comes back tagged as exhausted.  The clock
    is looked at when an attempt has ended; an attempt that never ends
    shows as fuel running out. *)
Fixpoint attempts {A} (op : M A) (cfg : RetryConfig) (start : Z)
         (more : nat) : M A :=
  fun w =>
    match op w with
    | (OutOfFuel, w1) => (OutOfFuel, w1)
    | (Ok a, w1) =>
        (t <- now ;;
         if timeout cfg <? t - start then throw RetryTimeout else ret a) w1
    | (Throw e, w1) =>
        (t <- now ;;
         if timeout cfg <? t - start then throw RetryTimeout
         else
           match more with
           | O => throw (RetryExhausted e)
           | S k => emit (Sleep (delayMs cfg)) ;; attempts op cfg start k
           end) w1
    end.

Definition retry {A} (op : M A) (cfg : RetryConfig) : M A :=
  start <- now ;;
  attempts op cfg start (Nat.pred (Pos.to_nat (maxAttempts cfg))).

Definition loadJobsConfig : RetryConfig :=
  {| maxAttempts := 3; delayMs := 300; timeout := 30000 |}.

(** [_loadJobs()] *)
Definition _loadJobs (fuel : nat) : M LoadResult :=
  retry (detect fuel) loadJobsConfig.

Definition extractJobCardsData (p : Page) : M (list Job) :=
  ask (Extract p) (env_extract E).

(** Lines 132-151, over the convergence pass [load].  [Some v] is a
    [return v] from inside the loop, [None] is the loop left by its
    condition or by [break].  No step of the loop assigns [_page], so
    the page of the guard in [searchJobs] is the page of every step. *)
Fixpoint searchLoop (load : M LoadResult) (p : Page) (fuel : nat)
         (limit processedJobs : Z) : M (option SearchResult) :=
  if processedJobs <? limit then
    match fuel with
    | O => fun w => (OutOfFuel, w)
    | S f =>
        r <- load ;;
        emit (Console (LogTotal (totalJobs r))) ;;
        if negb (success r)
        then _takeScreenshot "🔴 No jobs found" ;; ret (Some (Jobs []))
        else
          res <- extractJobCardsData p ;;
          let processedJobs := processedJobs + Z.of_nat (List.length res) in
          emit (Console (LogJobs res)) ;;
          if limit <=? processedJobs
          then _takeScreenshot "🟢 Job limit reached" ;; ret None
          else _paginate 25 ;; searchLoop load p f limit processedJobs
    end
  else ret None.

Definition searchUrl (keywords location : string) : string :=
  LI_jobsSearch K
  ++ "?keywords=" ++ Text.encodeURIComponent keywords
  ++ "&location=" ++ Text.encodeURIComponent location.

(** [searchJobs] over the convergence pass it uses. *)
Definition searchJobs_over (load : M LoadResult)
           (keywords location : string) (limit : Z) (fuel : nat)
  : M SearchResult :=
  fun w =>
    match _page w with
    | None => throw (JsError "🔴 Scraper not initialized") w
    | Some p =>
        (goto p (searchUrl keywords location) (Some "load") ;;
         _takeScreenshot "Search jobs page" ;;
         r <- searchLoop load p fuel limit 0 ;;
         match r with
         | Some v => ret v
         | None => emit (Console LogCache) ;; ret Undefined
         end) w
    end.

(** [searchJobs(keywords, location, limit = 25)] *)
Definition searchJobs (keywords location : string) (limit : Z) (fuel : nat)
  : M SearchResult :=
  searchJobs_over (_loadJobs fuel) keywords location limit fuel.

(** [close()].  The browser's [close] is awaited outside any [try]: its
    rejection is the rejection of [close()], and [_page] is set to null
    only once it has resolved. *)
Definition close : M unit :=
  fun w =>
    match _page w with
    | Some p =>
        (match page_browser p with
         | Some b => call (CloseBrowser b)
         | None => ret tt
         end ;;
         set_page None) w
    | None => (Ok tt, w)
    end.

End Scraper.

(** ** Sample surroundings *)

Module Sample.

Definition constants : Constants :=
  {| LI_home := "https://www.linkedin.com/feed/";
     LI_jobsSearch := "https://www.linkedin.com/jobs/search";
     SEL_activeMenu := ".global-nav__me";
     SEL_jobs := "li.job-card";
     SEL_jobCardSkeletons := [".skeleton-a"; ".skeleton-b"] |}.

Definition ten : list Job :=
  ["j0"; "j1"; "j2"; "j3"; "j4"; "j5"; "j6"; "j7"; "j8"; "j9"].

Definition page_at (start : string) : URL :=
  {| url_head := "https://www.linkedin.com/jobs/search";
     searchParams := [("keywords", "ocaml"); ("start", start)];
     url_hash := "" |}.

(** Nothing rejects; the marker is visible as [marker] says; every count
    is 7 and every extraction gives ten records. *)
Definition steady (marker : bool) : Env :=
  {| env_unit := fun _ _ => None;
     env_visible := fun _ => Resolve marker;
     env_count := fun _ => Resolve 7%nat;
     env_extract := fun _ => Resolve ten;
     env_url := fun _ => page_at "0";
     env_now := fun _ => 0;
     env_inexact := fun _ _ => "" |}.

(** As [steady true], but every screenshot rejects. *)
Definition no_disk : Env :=
  {| env_unit := fun c _ =>
                   match c with
                   | Screenshot _ _ _ => Some (Failure 1)
                   | _ => None
                   end;
     env_visible := fun _ => Resolve true;
     env_count := fun _ => Resolve 7%nat;
     env_extract := fun _ => Resolve ten;
     env_url := fun _ => page_at "0";
     env_now := fun _ => 0;
     env_inexact := fun _ _ => "" |}.

(** A list that grows 3, 5, 8, 8 and then stays. *)
Definition growing : Env :=
  {| env_unit := fun _ _ => None;
     env_visible := fun _ => Resolve true;
     env_count := fun i => Resolve (match i with
                                    | 0 => 3 | 1 => 5 | _ => 8
                                    end)%nat;
     env_extract := fun _ => Resolve ten;
     env_url := fun _ => page_at "0";
     env_now := fun _ => 0;
     env_inexact := fun _ _ => "" |}.

(** As [growing], but the second scroll rejects. *)
Definition flaky : Env :=
  {| env_unit := fun c n =>
                   match c with
                   | ScrollIntoView _ _ =>
                       if Nat.eqb n 1 then Some (Failure 2) else None
                   | _ => None
                   end;
     env_visible := fun _ => Resolve true;
     env_count := fun i => Resolve (match i with
                                    | 0 => 3 | 1 => 5 | _ => 8
                                    end)%nat;
     env_extract := fun _ => Resolve ten;
     env_url := fun _ => page_at "0";
     env_now := fun i => 1000 * Z.of_nat i;
     env_inexact := fun _ _ => "" |}.

(** As [steady true], but the browser refuses to close. *)
Definition stuck_browser : Env :=
  {| env_unit := fun c _ =>
                   match c with
                   | CloseBrowser _ => Some (Failure 6)
                   | _ => None
                   end;
     env_visible := fun _ => Resolve true;
     env_count := fun _ => Resolve 7%nat;
     env_extract := fun _ => Resolve ten;
     env_url := fun _ => page_at "0";
     env_now := fun _ => 0;
     env_inexact := fun _ _ => "" |}.

(** As [steady true], but the clock moves on by a second at every read. *)
Definition ticking : Env :=
  {| env_unit := fun _ _ => None;
     env_visible := fun _ => Resolve true;
     env_count := fun _ => Resolve 7%nat;
     env_extract := fun _ => Resolve [];
     env_url := fun _ => page_at "0";
     env_now := fun i => 1000 * Z.of_nat i;
     env_inexact := fun _ _ => "" |}.

Definition a_page : Page := {| page_no := 0; page_browser := Some 0%nat |}.

Definition ready : World :=
  {| _page := Some a_page; _screenshotCount := 2; log := [] |}.

End Sample.

(** [E] with other answers about the visibility of the marker. *)
Definition with_visible (E : Env) (visible : nat -> Answer bool) : Env :=
  {| env_unit := env_unit E;
     env_visible := visible;
     env_count := env_count E;
     env_extract := env_extract E;
     env_url := env_url E;
     env_now := env_now E;
     env_inexact := env_inexact E |}.

(** The world after the calls [new], latest first. *)
Definition logged (new : list Call) (w : World) : World :=
  {| _page := _page w; _screenshotCount := _screenshotCount w;
     log := new ++ log w |}.

(** One turn of the scroll loop: scroll, wait, count. *)
Definition turn (K : Constants) (p : Page) (w : World) : World :=
  logged [Count p (SEL_jobs K); WaitForTimeout p 200;
          ScrollIntoView p (SEL_jobs K)] w.

Definition waits (K : Constants) (p : Page) : list Call :=
  map (fun selector => WaitForSelector p selector 3000 "detached")
      (SEL_jobCardSkeletons K).

(** The world in which the scroll loop of [detect] starts. *)
Definition counted (K : Constants) (p : Page) (w : World) : World :=
  push (Count p (SEL_jobs K)) (logged (rev (waits K p)) w).

(** Whether, in [w1], the retry that began at [start] has run out of time. *)
Definition late (E : Env) (cfg : RetryConfig) (start : Z) (w1 : World) : bool :=
  timeout cfg <? env_now E (seen KNow (log w1)) - start.

(** The world after a convergence pass that returns at its first poll. *)
Definition loaded (K : Constants) (p : Page) (w : World) : World :=
  push Now (turn K p (counted K p (push Now w))).

(** The world after a capture that resolves. *)
Definition captured (p : Page) (label : string) (w : World) : World :=
  {| _page := _page w;
     _screenshotCount := S (_screenshotCount w);
     log := Screenshot p (screenshot_path (_screenshotCount w)) true
            :: Console (LogText ("📷 " ++ label)) :: log w |}.

(** The world after a pagination that resolves. *)
Definition paged (E : Env) (p : Page) (w : World) : World :=
  logged [Goto p (URL_toString
                    (advance E (env_url E (seen KReadUrl (log w))) 25))
               (Some "load");
          ReadUrl p] w.

(** The world after an extraction of [res] and the two prints around it. *)
Definition extracted (p : Page) (total : nat) (res : list Job) (w : World)
  : World :=
  logged [Console (LogJobs res); Extract p; Console (LogTotal total)] w.

(** The calls of one cycle of the quota loop up to the extraction and its
    print, latest first, when the pass returns at its first poll. *)
Definition cycle_calls (K : Constants) (p : Page) (total : nat)
           (res : list Job) : list Call :=
  [Console (LogJobs res); Extract p; Console (LogTotal total); Now;
   Count p (SEL_jobs K); WaitForTimeout p 200; ScrollIntoView p (SEL_jobs K);
   Count p (SEL_jobs K)]
  ++ rev (waits K p) ++ [Now].

(** Calls of kind [k] made between two worlds. *)
Definition during (k : Kind) (w w' : World) : nat :=
  (seen k (log w') - seen k (log w))%nat.

(** The kinds of call that open, authenticate or close a session. *)
Definition session_kinds : list Kind :=
  [KLaunch; KNewContext; KAddCookies; KNewPage; KIsVisible; KCloseBrowser].

(** A call that is of none of the session kinds. *)
Definition quiet (c : Call) : bool :=
  forallb (fun k => negb (is_kind k c)) session_kinds.

(** From [w] to [w']: the same page, a capture counter that has not gone
    down, and no call of a session kind made. *)
Definition within (w w' : World) : Prop :=
  _page w' = _page w
  /\ (_screenshotCount w <= _screenshotCount w')%nat
  /\ Forall (fun k => seen k (log w') = seen k (log w)) session_kinds.

Definition keeps {A} (m : M A) : Prop := forall w, within w (snd (m w)).

(** The address after [n] paginations that each land where they were sent. *)
Definition advance_n (E : Env) (n : nat) (u : URL) : URL :=
  Nat.iter n (fun v => advance E v 25) u.

(** The offset that [_paginate] reads from an address. *)
Definition offset_of (u : URL) : JsNumber :=
  parseInt (or_zero (SearchParams.get "start" (searchParams u))).

(** The cookie that [initialize] injects. *)
Definition li_at (liAtCookie : string) : Cookie :=
  {| cookie_name := "li_at"; cookie_value := liAtCookie;
     cookie_domain := ".linkedin.com"; cookie_path := "/" |}.

(** The page that an [initialize] begun in [w] opens. *)
Definition page_opened (w : World) : Page :=
  {| page_no := seen KNewPage (log w);
     page_browser := Some (seen KLaunch (log w)) |}.

(** The world after an [initialize] in which every call has resolved. *)
Definition opened (K : Constants) (liAtCookie : string) (w : World) : World :=
  let b := seen KLaunch (log w) in
  let pg := page_opened w in
  {| _page := Some pg;
     _screenshotCount := S (_screenshotCount w);
     log := [Screenshot pg (screenshot_path (_screenshotCount w)) true;
             Console (LogText "📷 Home page");
             Console (LogText "🟢 Successfully authenticated!");
             IsVisible pg (SEL_activeMenu K);
             Goto pg (LI_home K) None;
             NewPage b;
             AddCookies b [li_at liAtCookie];
             NewContext b;
             Console (LogText "🟢 Connected, navigating...");
             Launch;
             Console (LogText "🟡 Connecting to a scraping browser")]
            ++ log w |}.

(** The characters that [encodeURIComponent] can produce. *)
Definition plain (c : ascii) : bool :=
  Text.is_alnum c || Text.one_of "-_.!~*'()%" c.

Definition all_plain (s : string) : bool :=
  forallb plain (list_ascii_of_string s).

(** * Properties *)

(** ** Text and addresses *)

Example parse_0 : parseInt "0" = Int 0.
Proof. reflexivity. Qed.

Example parse_minus_25px : parseInt "  -25px" = Int (-25).
Proof. reflexivity. Qed.

Example parse_abc : parseInt "abc" = NaN.
Proof. reflexivity. Qed.

Example text_of_Z : Text.of_Z 25 = "25" /\ Text.of_Z (-7) = "-7" /\ Text.of_Z 0 = "0".
Proof. repeat split; reflexivity. Qed.

Example screenshot_path_12 : screenshot_path 12 = "screenshots/00012_page.png".
Proof. reflexivity. Qed.

Example encode_blank : Text.encodeURIComponent "a b&c" = "a%20b%26c".
Proof. reflexivity. Qed.

Lemma get_set name value ps :
  SearchParams.get name (SearchParams.set name value ps) = Some value.
Proof.
  induction ps as [|[k v] r IH]; simpl.
  - rewrite String.eqb_refl. reflexivity.
  - destruct (String.eqb k name) eqn:Hk; simpl; rewrite Hk; auto.
Qed.

Lemma get_advance E u size :
  SearchParams.get "start" (searchParams (advance E u size))
  = Some (number_text E
            (parseInt (or_zero (SearchParams.get "start" (searchParams u))))
            size).
Proof. unfold advance. simpl. apply get_set. Qed.

Lemma paginate_calls E w p :
  _page w = Some p ->
  log (snd (_paginate E 25 w))
  = Goto p (URL_toString (advance E (env_url E (seen KReadUrl (log w))) 25))
         (Some "load")
    :: ReadUrl p :: log w.
Proof.
  intros Hp. unfold _paginate. rewrite Hp.
  unfold bind, page_url, goto, call. simpl.
  destruct (env_unit E _ _); reflexivity.
Qed.

(** C3, as the code has it: an unparsable [start] does not count as 0.
    From [start=abc] the next address carries [start=NaN], not [start=25]. *)
Lemma paginate_malformed_start_gives_NaN :
  let u := advance (Sample.steady true) (Sample.page_at "abc") 25 in
  SearchParams.get "start" (searchParams u) = Some "NaN"
  /\ SearchParams.get "start" (searchParams u) <> Some "25"
  /\ URL_toString u
     = "https://www.linkedin.com/jobs/search?keywords=ocaml&start=NaN".
Proof.
  repeat split; try reflexivity. vm_compute. discriminate.
Qed.

(** C3 (amended): with the default page size, [_paginate] goes from
    [start=0] to [start=25] and from there to [start=50], from [start=25]
    to [start=50], and from an address whose [start] is absent or empty to
    [start=25]; the address it navigates to is the advanced one. *)
Theorem paginate_default_step E u :
  let start := SearchParams.get "start" (searchParams u) in
  let next v := SearchParams.get "start" (searchParams v) in
  (start = Some "0" ->
   next (advance E u 25) = Some "25"
   /\ next (advance E (advance E u 25) 25) = Some "50")
  /\ (start = Some "25" -> next (advance E u 25) = Some "50")
  /\ (start = None \/ start = Some "" -> next (advance E u 25) = Some "25")
  /\ (forall w p,
         _page w = Some p -> env_url E (seen KReadUrl (log w)) = u ->
         log (snd (_paginate E 25 w))
         = Goto p (URL_toString (advance E u 25)) (Some "load")
           :: ReadUrl p :: log w).
Proof.
  cbv zeta. split; [|split; [|split]].
  - intros H. split.
    + rewrite get_advance, H. reflexivity.
    + rewrite get_advance, get_advance, H. reflexivity.
  - intros H. rewrite get_advance, H. reflexivity.
  - intros [H|H]; rewrite get_advance, H; reflexivity.
  - intros w p Hp Hu. rewrite <- Hu. apply paginate_calls, Hp.
Qed.

Lemma paginate_default_step_witness :
  SearchParams.get "start"
    (searchParams (advance (Sample.steady true)
                     (advance (Sample.steady true) (Sample.page_at "0") 25) 25))
  = Some "50"
  /\ log (snd (_paginate (Sample.steady true) 25 Sample.ready))
     = [Goto Sample.a_page
          "https://www.linkedin.com/jobs/search?keywords=ocaml&start=25"
          (Some "load");
        ReadUrl Sample.a_page].
Proof.
  destruct (paginate_default_step (Sample.steady true) (Sample.page_at "0"))
    as [H0 [_ [_ Hw]]].
  split.
  - apply H0. reflexivity.
  - apply (Hw Sample.ready Sample.a_page); reflexivity.
Defined.

(** ** Counting calls *)

Lemma seen_cons k c l :
  seen k (c :: l) = if is_kind k c then S (seen k l) else seen k l.
Proof. unfold seen. simpl. destruct (is_kind k c); reflexivity. Qed.

Lemma seen_app k l1 l2 : seen k (l1 ++ l2) = (seen k l1 + seen k l2)%nat.
Proof. unfold seen. rewrite filter_app, length_app. reflexivity. Qed.

Ltac seen_step :=
  repeat (rewrite seen_cons; cbn [is_kind kind_of kind_code Nat.eqb]).

Lemma seen_rev k l : seen k (rev l) = seen k l.
Proof.
  induction l as [|c l IH]; simpl; [reflexivity|].
  rewrite seen_app, IH, !seen_cons.
  change (seen k []) with 0%nat.
  destruct (is_kind k c); lia.
Qed.

Lemma seen_waits k p sels :
  k <> KWaitForSelector ->
  seen k (map (fun s => WaitForSelector p s 3000 "detached") sels) = 0%nat.
Proof.
  intros Hk. induction sels as [|s r IH]; simpl; [reflexivity|].
  rewrite seen_cons, IH. destruct k; try reflexivity. congruence.
Qed.

(** ** Before [initialize], and [close] *)

(** C6: [searchJobs] on a scraper without a page throws the
    not-initialized error and leaves the world as it was: no call is made,
    so no navigation, no extraction and no capture, and the counter of
    captures keeps its value. *)
Theorem searchJobs_before_initialize K E keywords location limit fuel w :
  _page w = None ->
  searchJobs K E keywords location limit fuel w
  = (Throw (JsError "🔴 Scraper not initialized"), w).
Proof.
  intros H. unfold searchJobs, searchJobs_over. rewrite H. reflexivity.
Qed.

Lemma searchJobs_before_initialize_witness :
  searchJobs Sample.constants (Sample.steady true) "rocq" "Paris" 25 9 fresh
  = (Throw (JsError "🔴 Scraper not initialized"), fresh).
Proof.
  apply (searchJobs_before_initialize Sample.constants (Sample.steady true)).
  reflexivity.
Defined.

Ltac run_initialize :=
  unfold initialize, console, launch, newPage, goto, _isLoggedIn,
    _takeScreenshot, console, bump_screenshotCount, set_page, call, emit,
    bind, ret, throw, not_object, push;
  cbn [kind_of _page _screenshotCount log fst snd];
  seen_step.

Lemma initialize_Ok_opened K E liAtCookie w w' :
  initialize K E liAtCookie w = (Ok tt, w') -> w' = opened K liAtCookie w.
Proof.
  run_initialize.
  repeat (match goal with
          | |- context [env_unit E ?c ?n] => destruct (env_unit E c n)
          end; simpl; try discriminate).
  intros H. injection H as <-. unfold opened, page_opened, li_at.
  seen_step. reflexivity.
Qed.

Lemma initialize_resolves K E liAtCookie w :
  (forall call n, env_unit E call n = None) ->
  initialize K E liAtCookie w = (Ok tt, opened K liAtCookie w).
Proof.
  intros Hunit. run_initialize. rewrite !Hunit. simpl.
  unfold opened, page_opened, li_at. seen_step. rewrite ?Hunit. reflexivity.
Qed.

Lemma close_run E w p b :
  _page w = Some p ->
  page_browser p = Some b ->
  close E w
  = match env_unit E (CloseBrowser b) (seen KCloseBrowser (log w)) with
    | None =>
        (Ok tt,
         {| _page := None;
            _screenshotCount := _screenshotCount w;
            log := CloseBrowser b :: log w |})
    | Some e => (Throw e, push (CloseBrowser b) w)
    end.
Proof.
  intros Hp Hb. unfold close. rewrite Hp, Hb. unfold bind, call, set_page.
  cbn [kind_of].
  destruct (env_unit E (CloseBrowser b) (seen KCloseBrowser (log w)));
    reflexivity.
Qed.

(** C7, as the code has it: when the browser's own [close] rejects,
    [close()] throws that rejection and keeps the page, and so does every
    further [close()]. *)
Lemma close_can_throw :
  let w := snd (initialize Sample.constants Sample.stuck_browser "AQEDA"
                           fresh) in
  fst (initialize Sample.constants Sample.stuck_browser "AQEDA" fresh) = Ok tt
  /\ fst (close Sample.stuck_browser w) = Throw (Failure 6)
  /\ _page (snd (close Sample.stuck_browser w)) = Some (page_opened fresh)
  /\ fst (close Sample.stuck_browser (snd (close Sample.stuck_browser w)))
     = Throw (Failure 6).
Proof. repeat split; vm_compute; reflexivity. Qed.

(** C7 (amended): without a page [close] does nothing and throws nothing.
    With the page that [initialize] has installed it asks the browser
    launched by that [initialize] to close; when that resolves the page is
    forgotten and [close] called again does nothing and throws nothing;
    when it rejects [close] throws the rejection and keeps the page. *)
Theorem close_releases_installed_page E w :
  (_page w = None -> close E w = (Ok tt, w))
  /\ (forall K liAtCookie w0,
         initialize K E liAtCookie w0 = (Ok tt, w) ->
         _page w = Some {| page_no := seen KNewPage (log w0);
                           page_browser := Some (seen KLaunch (log w0)) |})
  /\ (forall p b,
         _page w = Some p ->
         page_browser p = Some b ->
         log (snd (close E w)) = CloseBrowser b :: log w
         /\ match env_unit E (CloseBrowser b) (seen KCloseBrowser (log w)) with
            | None =>
                close E w
                = (Ok tt,
                   {| _page := None;
                      _screenshotCount := _screenshotCount w;
                      log := CloseBrowser b :: log w |})
                /\ close E (snd (close E w)) = (Ok tt, snd (close E w))
            | Some e =>
                close E w = (Throw e, push (CloseBrowser b) w)
                /\ _page (snd (close E w)) = Some p
            end).
Proof.
  split; [|split].
  - intros Hp. unfold close. rewrite Hp. reflexivity.
  - intros K liAtCookie w0 Hi. apply initialize_Ok_opened in Hi.
    subst w. reflexivity.
  - intros p b Hp Hb.
    pose proof (close_run E w p b Hp Hb) as Hrun.
    rewrite Hrun.
    destruct (env_unit E (CloseBrowser b) (seen KCloseBrowser (log w)));
      cbn [snd push log _page].
    + repeat split. exact Hp.
    + repeat split.
Qed.

Lemma close_releases_installed_page_witness :
  let w := snd (initialize Sample.constants (Sample.steady true) "AQEDA"
                           fresh) in
  close (Sample.steady true) fresh = (Ok tt, fresh)
  /\ log (snd (close (Sample.steady true) w)) = CloseBrowser 0%nat :: log w
  /\ fst (close (Sample.steady true) w) = Ok tt
  /\ close (Sample.steady true) (snd (close (Sample.steady true) w))
     = (Ok tt, snd (close (Sample.steady true) w)).
Proof.
  intros w.
  destruct (close_releases_installed_page (Sample.steady true) fresh)
    as [H0 _].
  destruct (close_releases_installed_page (Sample.steady true) w)
    as [_ [_ H]].
  destruct (H (page_opened fresh) 0%nat) as [Hlog [Hrun Hagain]];
    [reflexivity | reflexivity |].
  split; [apply H0; reflexivity|].
  split; [exact Hlog|].
  split; [rewrite Hrun; reflexivity | exact Hagain].
Defined.

(** ** Running the monad *)

Lemma bind_Ok {A B} (m : M A) (f : A -> M B) w a w1 :
  m w = (Ok a, w1) -> bind m f w = f a w1.
Proof. intros H. unfold bind. rewrite H. reflexivity. Qed.

Lemma bind_Throw {A B} (m : M A) (f : A -> M B) w e w1 :
  m w = (Throw e, w1) -> bind m f w = (Throw e, w1).
Proof. intros H. unfold bind. rewrite H. reflexivity. Qed.

Lemma bind_inv_Ok {A B} (m : M A) (f : A -> M B) w b w2 :
  bind m f w = (Ok b, w2) ->
  exists a w1, m w = (Ok a, w1) /\ f a w1 = (Ok b, w2).
Proof.
  unfold bind. destruct (m w) as [[a|e|] w1]; try discriminate. eauto.
Qed.

Lemma call_run E c w :
  env_unit E c (seen (kind_of c) (log w)) = None ->
  call E c w = (Ok tt, push c w).
Proof. intros H. unfold call. rewrite H. reflexivity. Qed.

Lemma getCount_run K E p w n :
  env_count E (seen KCount (log w)) = Resolve n ->
  getCount K E p w = (Ok n, push (Count p (SEL_jobs K)) w).
Proof. intros H. unfold getCount, ask. simpl. rewrite H. reflexivity. Qed.

Lemma allSettled_run cs : forall w,
  allSettled cs w = (Ok tt, logged (rev cs) w).
Proof.
  induction cs as [|c r IH]; intros w.
  - destruct w. reflexivity.
  - simpl. unfold bind, emit. rewrite IH. unfold logged, push. simpl.
    rewrite <- app_assoc. reflexivity.
Qed.

(** ** [initialize] and the captures *)

Lemma initialize_ignores_marker K E visible cookie w :
  initialize K (with_visible E visible) cookie w = initialize K E cookie w.
Proof.
  unfold initialize, console, launch, newPage, goto, _isLoggedIn,
    _takeScreenshot, console, bump_screenshotCount, set_page, call, emit,
    bind, ret, throw, not_object, push.
  simpl.
  repeat (match goal with
          | |- context [env_unit E ?c ?n] => destruct (env_unit E c n)
          end; simpl; try reflexivity).
Qed.

(** C1, at a session that is not logged in: the marker is invisible, yet
    [initialize] ends well after the one capture of the home page; the
    promise of [_isLoggedIn] is negated without being awaited. *)
Theorem initialize_accepts_invisible_marker :
  let r := initialize Sample.constants (Sample.steady false)
                      "not-a-session" fresh in
  fst r = Ok tt
  /\ filter (is_kind KScreenshot) (log (snd r))
     = [Screenshot {| page_no := 0; page_browser := Some 0%nat |}
                   "screenshots/00001_page.png" true]
  /\ In (Console (LogText "📷 Home page")) (log (snd r))
  /\ In (IsVisible {| page_no := 0; page_browser := Some 0%nat |}
                   ".global-nav__me") (log (snd r)).
Proof.
  vm_compute. repeat split; auto 10.
Qed.

(** C9, as the code has it: with every screenshot rejecting, [searchJobs]
    and [initialize] fail with the rejection, where they end well when the
    screenshots resolve. *)
Lemma capture_failure_changes_outcome :
  fst (searchJobs Sample.constants Sample.no_disk "rocq" "Paris" 25 9
                  Sample.ready) = Throw (Failure 1)
  /\ fst (searchJobs Sample.constants (Sample.steady true) "rocq" "Paris" 25 9
                     Sample.ready) = Ok Undefined
  /\ fst (initialize Sample.constants Sample.no_disk "AQEDA" fresh)
     = Throw (Failure 1)
  /\ fst (initialize Sample.constants (Sample.steady true) "AQEDA" fresh)
     = Ok tt.
Proof. repeat split; vm_compute; reflexivity. Qed.

(** C9 (amended): a capture is awaited without a guard.  When the
    screenshot rejects, [_takeScreenshot] throws the rejection and keeps
    the counter, and the throw goes on to the caller: [initialize] and
    [searchJobs] on an initialized scraper then end in a throw. *)
Theorem capture_failure_propagates K E e :
  (forall p path n, env_unit E (Screenshot p path true) n = Some e) ->
  (forall label w p,
      _page w = Some p ->
      fst (_takeScreenshot E label w) = Throw e
      /\ _screenshotCount (snd (_takeScreenshot E label w))
         = _screenshotCount w)
  /\ (forall cookie w, exists e', fst (initialize K E cookie w) = Throw e')
  /\ (forall keywords location limit fuel w p,
         _page w = Some p ->
         exists e',
           fst (searchJobs K E keywords location limit fuel w) = Throw e').
Proof.
  intros Hshot. split; [|split].
  - intros label w p Hp.
    unfold _takeScreenshot, console, emit, call, bind, push. simpl.
    rewrite Hp, Hshot. split; reflexivity.
  - intros cookie w.
    unfold initialize, console, launch, newPage, goto, _isLoggedIn,
      _takeScreenshot, console, bump_screenshotCount, set_page, call, emit,
      bind, ret, throw, not_object, push.
    simpl.
    repeat (match goal with
            | |- context [env_unit E (Screenshot ?a ?b true) ?n] =>
                rewrite (Hshot a b n)
            | |- context [env_unit E ?c ?n] => destruct (env_unit E c n)
            end; simpl; eauto).
  - intros keywords location limit fuel w p Hp.
    unfold searchJobs, searchJobs_over. rewrite Hp.
    unfold goto, _takeScreenshot, console, emit, call, bind, push. simpl.
    destruct (env_unit E (Goto _ _ _) _); simpl; eauto.
    rewrite Hp, Hshot. simpl. eauto.
Qed.

Lemma capture_failure_propagates_witness :
  fst (_takeScreenshot Sample.no_disk "Home page" Sample.ready)
  = Throw (Failure 1)
  /\ exists e',
      fst (searchJobs Sample.constants Sample.no_disk "rocq" "Paris" 25 9
                      Sample.ready) = Throw e'.
Proof.
  destruct (capture_failure_propagates Sample.constants Sample.no_disk
              (Failure 1)) as [H1 [_ H3]].
  - intros p path n. reflexivity.
  - split.
    + apply (H1 "Home page" Sample.ready Sample.a_page). reflexivity.
    + apply (H3 "rocq" "Paris" 25 9%nat Sample.ready Sample.a_page).
      reflexivity.
Defined.

(** ** The quota loop *)

(** C10: on an initialized scraper with a limit of 0 or less, once the
    navigation to the search address has resolved, [searchJobs] makes that
    navigation and one capture and nothing else: no convergence pass (no
    clock read, no count, no scroll), no extraction and no pagination. *)
Theorem searchJobs_nonpositive_limit K E keywords location limit fuel w p :
  _page w = Some p ->
  limit <= 0 ->
  env_unit E (Goto p (searchUrl K keywords location) (Some "load"))
           (seen KGoto (log w)) = None ->
  let visit :=
    [Screenshot p (screenshot_path (_screenshotCount w)) true;
     Console (LogText "📷 Search jobs page");
     Goto p (searchUrl K keywords location) (Some "load")] in
  match env_unit E (Screenshot p (screenshot_path (_screenshotCount w)) true)
                 (seen KScreenshot (log w)) with
  | None =>
      searchJobs K E keywords location limit fuel w
      = (Ok Undefined,
         {| _page := Some p;
            _screenshotCount := S (_screenshotCount w);
            log := Console LogCache :: visit ++ log w |})
  | Some e =>
      searchJobs K E keywords location limit fuel w
      = (Throw e,
         {| _page := Some p;
            _screenshotCount := _screenshotCount w;
            log := visit ++ log w |})
  end.
Proof.
  intros Hp Hl Hgo. cbv zeta.
  unfold searchJobs, searchJobs_over. rewrite Hp.
  unfold goto, _takeScreenshot, console, emit, call, bind, push,
    bump_screenshotCount.
  cbn [kind_of]. rewrite Hgo. simpl. rewrite Hp. seen_step.
  destruct (env_unit E (Screenshot _ _ _) _); [reflexivity|].
  assert (Hc : (0 <? limit) = false) by (apply Z.ltb_ge; exact Hl).
  destruct fuel; simpl; rewrite Hc; reflexivity.
Qed.

Lemma searchJobs_nonpositive_limit_witness :
  searchJobs Sample.constants (Sample.steady true) "rocq" "Paris" 0 9
             Sample.ready
  = (Ok Undefined,
     {| _page := Some Sample.a_page;
        _screenshotCount := 3;
        log := [Console LogCache;
                Screenshot Sample.a_page "screenshots/00002_page.png" true;
                Console (LogText "📷 Search jobs page");
                Goto Sample.a_page
                  "https://www.linkedin.com/jobs/search?keywords=rocq&location=Paris"
                  (Some "load")] |}).
Proof.
  apply (searchJobs_nonpositive_limit Sample.constants (Sample.steady true)
           "rocq" "Paris" 0 9%nat Sample.ready Sample.a_page).
  - reflexivity.
  - lia.
  - reflexivity.
Defined.

(** ** The convergence loop *)

Section Convergence.

Variable K : Constants.
Variable E : Env.
Variable p : Page.
Variable sizes : nat -> nat.

Hypothesis scroll_resolves :
  forall n, env_unit E (ScrollIntoView p (SEL_jobs K)) n = None.
Hypothesis wait_resolves :
  forall n, env_unit E (WaitForTimeout p 200) n = None.
Hypothesis counts : forall i, env_count E i = Resolve (sizes i).

Lemma scrollLoop_turn fuel count w :
  scrollLoop K E (S fuel) p count w
  = if Nat.eqb (sizes (seen KCount (log w))) count
    then (Ok count, turn K p w)
    else scrollLoop K E fuel p (sizes (seen KCount (log w))) (turn K p w).
Proof.
  cbn [scrollLoop].
  rewrite (bind_Ok _ _ _ tt (push (ScrollIntoView p (SEL_jobs K)) w))
    by (apply call_run, scroll_resolves).
  rewrite (bind_Ok _ _ _ tt
             (push (WaitForTimeout p 200)
                   (push (ScrollIntoView p (SEL_jobs K)) w)))
    by (apply call_run, wait_resolves).
  rewrite (bind_Ok _ _ _ (sizes (seen KCount (log w)))
             (turn K p w)).
  - destruct (Nat.eqb _ _); reflexivity.
  - rewrite (getCount_run K E p _ (sizes (seen KCount (log w)))).
    + reflexivity.
    + cbn [push log]. seen_step. apply counts.
Qed.

Lemma seen_turn w :
  seen KCount (log (turn K p w)) = S (seen KCount (log w)).
Proof. unfold turn, logged. cbn [log app]. seen_step. reflexivity. Qed.

(** The loop leaves at the first poll that repeats the count before it. *)
Lemma scrollLoop_converges m : forall a w fuel,
  seen KCount (log w) = S a ->
  (forall j, (j < m)%nat -> sizes (S (a + j)) <> sizes (a + j)%nat) ->
  sizes (S (a + m)) = sizes (a + m)%nat ->
  (m < fuel)%nat ->
  exists w',
    scrollLoop K E fuel p (sizes a) w = (Ok (sizes (a + m)%nat), w')
    /\ seen KCount (log w') = (S a + S m)%nat
    /\ _page w' = _page w.
Proof.
  induction m as [|m IH]; intros a w fuel Hw Hgrow Hstable Hfuel;
    (destruct fuel as [|fuel]; [lia|]);
    rewrite scrollLoop_turn, Hw.
  - rewrite Nat.add_0_r in *. rewrite Hstable, Nat.eqb_refl.
    exists (turn K p w). rewrite seen_turn, Hw. repeat split. lia.
  - assert (H0 : sizes (S a) <> sizes a).
    { specialize (Hgrow 0%nat). rewrite Nat.add_0_r in Hgrow.
      apply Hgrow. lia. }
    apply Nat.eqb_neq in H0. rewrite H0.
    destruct (IH (S a) (turn K p w) fuel) as [w' [Hrun [Hseen Hpage]]].
    + rewrite seen_turn, Hw. reflexivity.
    + intros j Hj. specialize (Hgrow (S j)).
      replace (S a + j)%nat with (a + S j)%nat by lia. apply Hgrow. lia.
    + replace (S a + m)%nat with (a + S m)%nat by lia. exact Hstable.
    + lia.
    + exists w'. replace (a + S m)%nat with (S a + m)%nat by lia.
      repeat split; [exact Hrun | lia | exact Hpage].
Qed.

(** Whenever the loop returns, it has just seen a poll repeat the count
    before it, and no earlier poll did. *)
Lemma scrollLoop_returns fuel : forall a w c w',
  seen KCount (log w) = S a ->
  scrollLoop K E fuel p (sizes a) w = (Ok c, w') ->
  exists m,
    (m < fuel)%nat
    /\ c = sizes (a + m)%nat
    /\ sizes (S (a + m)) = sizes (a + m)%nat
    /\ (forall j, (j < m)%nat -> sizes (S (a + j)) <> sizes (a + j)%nat)
    /\ seen KCount (log w') = (S a + S m)%nat.
Proof.
  induction fuel as [|fuel IH]; intros a w c w' Hw Hrun.
  - discriminate Hrun.
  - rewrite scrollLoop_turn, Hw in Hrun.
    destruct (Nat.eqb (sizes (S a)) (sizes a)) eqn:Heq.
    + apply Nat.eqb_eq in Heq. injection Hrun as <- <-.
      exists 0%nat. rewrite Nat.add_0_r, seen_turn, Hw.
      repeat split; try lia; trivial.
    + apply Nat.eqb_neq in Heq.
      destruct (IH (S a) (turn K p w) c w') as [m [H1 [H2 [H3 [H4 H5]]]]].
      * rewrite seen_turn, Hw. reflexivity.
      * exact Hrun.
      * exists (S m).
        replace (a + S m)%nat with (S a + m)%nat by lia.
        repeat split; try lia; trivial.
        intros j Hj. destruct j as [|j].
        -- rewrite Nat.add_0_r. exact Heq.
        -- replace (a + S j)%nat with (S a + j)%nat by lia.
           apply H4. lia.
Qed.

Lemma seen_counted w :
  seen KCount (log (counted K p w)) = S (seen KCount (log w)).
Proof.
  unfold counted, logged. cbn [push log]. seen_step.
  rewrite seen_app, seen_rev. unfold waits. rewrite seen_waits by discriminate.
  reflexivity.
Qed.

Lemma detect_unfold fuel w :
  _page w = Some p ->
  detect K E fuel w
  = bind (scrollLoop K E fuel p (sizes (seen KCount (log w))))
         (fun count' => ret {| success := true; totalJobs := count' |})
         (counted K p w).
Proof.
  intros Hp. unfold detect. rewrite Hp.
  rewrite (bind_Ok _ _ _ tt (logged (rev (waits K p)) w))
    by apply allSettled_run.
  rewrite (bind_Ok _ _ _ (sizes (seen KCount (log w))) (counted K p w)).
  - reflexivity.
  - apply getCount_run. unfold logged. cbn [log].
    rewrite seen_app, seen_rev. unfold waits.
    rewrite seen_waits by discriminate. apply counts.
Qed.

End Convergence.

(** C5: let [sizes] be the list sizes that the page reports, count after
    count, with scrolls and waits resolving.  A pass that starts at count
    number [k] returns at the first poll [m] that repeats the count before
    it, with [success] true and [totalJobs] that repeated size, after
    [m + 2] counts; and whenever a pass returns, it returns there: no pass
    returns while each poll so far differed from the count before it. *)
Theorem detect_converges_at_first_repeat K E p sizes w :
  (forall n, env_unit E (ScrollIntoView p (SEL_jobs K)) n = None) ->
  (forall n, env_unit E (WaitForTimeout p 200) n = None) ->
  (forall i, env_count E i = Resolve (sizes i)) ->
  _page w = Some p ->
  let k := seen KCount (log w) in
  (forall m,
      (forall j, (j < m)%nat -> sizes (S (k + j)) <> sizes (k + j)%nat) ->
      sizes (S (k + m)) = sizes (k + m)%nat ->
      forall fuel, (m < fuel)%nat ->
      exists w',
        detect K E fuel w
        = (Ok {| success := true; totalJobs := sizes (k + m)%nat |}, w')
        /\ seen KCount (log w') = (k + m + 2)%nat)
  /\ (forall fuel r w',
         detect K E fuel w = (Ok r, w') ->
         exists m,
           (m < fuel)%nat
           /\ r = {| success := true; totalJobs := sizes (k + m)%nat |}
           /\ sizes (S (k + m)) = sizes (k + m)%nat
           /\ (forall j, (j < m)%nat -> sizes (S (k + j)) <> sizes (k + j)%nat)
           /\ seen KCount (log w') = (k + m + 2)%nat).
Proof.
  intros Hscroll Hwait Hcounts Hp k. split.
  - intros m Hgrow Hstable fuel Hfuel.
    rewrite (detect_unfold K E p sizes Hcounts fuel w Hp). fold k.
    destruct (scrollLoop_converges K E p sizes Hscroll Hwait Hcounts m k
                (counted K p w) fuel) as [w' [Hrun [Hseen _]]]; trivial.
    + apply seen_counted.
    + exists w'. rewrite (bind_Ok _ _ _ _ _ Hrun). split; [reflexivity|].
      rewrite Hseen. lia.
  - intros fuel r w' Hrun.
    rewrite (detect_unfold K E p sizes Hcounts fuel w Hp) in Hrun. fold k in Hrun.
    apply bind_inv_Ok in Hrun. destruct Hrun as [c [w1 [Hloop Hret]]].
    injection Hret as <- <-.
    destruct (scrollLoop_returns K E p sizes Hscroll Hwait Hcounts fuel k
                (counted K p w) c w1) as [m [H1 [H2 [H3 [H4 H5]]]]];
      trivial.
    + apply seen_counted.
    + exists m. subst c. repeat split; trivial. rewrite H5. lia.
Qed.

Lemma detect_converges_at_first_repeat_witness :
  exists w',
    detect Sample.constants Sample.growing 5 Sample.ready
    = (Ok {| success := true; totalJobs := 8 |}, w')
    /\ seen KCount (log w') = 4%nat.
Proof.
  destruct (detect_converges_at_first_repeat
              Sample.constants Sample.growing Sample.a_page
              (fun i => match i with 0 => 3 | 1 => 5 | _ => 8 end)%nat
              Sample.ready) as [H _].
  - intros n. reflexivity.
  - intros n. reflexivity.
  - intros i. reflexivity.
  - reflexivity.
  - apply (H 2%nat).
    + intros j Hj. destruct j as [|[|j]]; simpl; [discriminate | discriminate | lia].
    + reflexivity.
    + lia.
Defined.

(** ** The retry around the convergence pass *)

Section Retry.

Variable E : Env.
Variable A : Type.
Variable op : M A.
Variable cfg : RetryConfig.
Variable start : Z.

Lemma attempts_Ok more w a w1 :
  op w = (Ok a, w1) -> late E cfg start w1 = false ->
  attempts E op cfg start more w = (Ok a, push Now w1).
Proof.
  intros Hop Hl. unfold late in Hl.
  destruct more; cbn [attempts]; rewrite Hop; unfold bind, now;
    rewrite Hl; reflexivity.
Qed.

Lemma attempts_again more w e w1 :
  op w = (Throw e, w1) -> late E cfg start w1 = false ->
  attempts E op cfg start (S more) w
  = attempts E op cfg start more
             (push (Sleep (delayMs cfg)) (push Now w1)).
Proof.
  intros Hop Hl. unfold late in Hl.
  cbn [attempts]. rewrite Hop. unfold bind at 1, now.
  rewrite Hl. reflexivity.
Qed.

Lemma attempts_last w e w1 :
  op w = (Throw e, w1) -> late E cfg start w1 = false ->
  attempts E op cfg start 0 w = (Throw (RetryExhausted e), push Now w1).
Proof.
  intros Hop Hl. unfold late in Hl.
  cbn [attempts]. rewrite Hop. unfold bind, now.
  rewrite Hl. reflexivity.
Qed.

Lemma attempts_late more w o w1 :
  op w = (o, w1) -> o <> OutOfFuel -> late E cfg start w1 = true ->
  attempts E op cfg start more w = (Throw RetryTimeout, push Now w1).
Proof.
  intros Hop Ho Hl. unfold late in Hl.
  destruct o as [a|e|]; [| |congruence];
    destruct more; cbn [attempts]; rewrite Hop; unfold bind, now;
    rewrite Hl; reflexivity.
Qed.

End Retry.

(** C8: [_loadJobs] is [retry] of the convergence pass under the policy
    of 3 attempts, 300 ms between them and 30000 ms in all.  An attempt
    that throws in time is followed, after the clock read and a sleep of
    300, by the whole pass run anew in the world as it then is; the third
    throw comes back as exhausted; an attempt that ends late gives a
    timeout. *)
Theorem loadJobs_retry_policy K E fuel w :
  let pass := detect K E fuel in
  let tardy w1 := late E loadJobsConfig (env_now E (seen KNow (log w))) w1 in
  let again w1 := push (Sleep 300) (push Now w1) in
  _loadJobs K E fuel w
  = retry E pass {| maxAttempts := 3; delayMs := 300; timeout := 30000 |} w
  /\ (forall r w1,
         pass (push Now w) = (Ok r, w1) -> tardy w1 = false ->
         _loadJobs K E fuel w = (Ok r, push Now w1))
  /\ (forall e1 w1,
         pass (push Now w) = (Throw e1, w1) -> tardy w1 = false ->
         (forall r w2,
             pass (again w1) = (Ok r, w2) -> tardy w2 = false ->
             _loadJobs K E fuel w = (Ok r, push Now w2))
         /\ (forall e2 w2,
                pass (again w1) = (Throw e2, w2) -> tardy w2 = false ->
                (forall r w3,
                    pass (again w2) = (Ok r, w3) -> tardy w3 = false ->
                    _loadJobs K E fuel w = (Ok r, push Now w3))
                /\ (forall e3 w3,
                       pass (again w2) = (Throw e3, w3) -> tardy w3 = false ->
                       _loadJobs K E fuel w
                       = (Throw (RetryExhausted e3), push Now w3))))
  /\ (forall o w1,
         pass (push Now w) = (o, w1) -> o <> OutOfFuel -> tardy w1 = true ->
         _loadJobs K E fuel w = (Throw RetryTimeout, push Now w1)).
Proof.
  cbv zeta.
  assert (Hrun : _loadJobs K E fuel w
                 = attempts E (detect K E fuel) loadJobsConfig
                            (env_now E (seen KNow (log w))) 2 (push Now w))
    by reflexivity.
  split; [reflexivity|]. split; [|split].
  - intros r w1 H1 L1. rewrite Hrun. apply attempts_Ok; assumption.
  - intros e1 w1 H1 L1. split.
    + intros r w2 H2 L2. rewrite Hrun.
      rewrite (attempts_again _ _ _ _ _ _ _ _ _ H1 L1).
      apply attempts_Ok; assumption.
    + intros e2 w2 H2 L2. split.
      * intros r w3 H3 L3. rewrite Hrun.
        rewrite (attempts_again _ _ _ _ _ _ _ _ _ H1 L1).
        rewrite (attempts_again _ _ _ _ _ _ _ _ _ H2 L2).
        apply attempts_Ok; assumption.
      * intros e3 w3 H3 L3. rewrite Hrun.
        rewrite (attempts_again _ _ _ _ _ _ _ _ _ H1 L1).
        rewrite (attempts_again _ _ _ _ _ _ _ _ _ H2 L2).
        apply attempts_last; assumption.
  - intros o w1 H1 Ho L1. rewrite Hrun.
    apply (attempts_late _ _ _ _ _ _ _ _ _ H1 Ho L1).
Qed.

Lemma loadJobs_retry_policy_witness :
  exists w2,
    _loadJobs Sample.constants Sample.flaky 5 Sample.ready
    = (Ok {| success := true; totalJobs := 8 |}, push Now w2)
    /\ seen KSleep (log w2) = 1%nat
    /\ seen KCount (log w2) = 4%nat.
Proof.
  destruct (loadJobs_retry_policy Sample.constants Sample.flaky 5 Sample.ready)
    as [_ [_ [H _]]].
  edestruct H as [H2 _]; [reflexivity | reflexivity |].
  eexists. split; [apply H2; reflexivity|].
  split; reflexivity.
Defined.

(** ** A steady page: nothing rejects, the list keeps its size *)

Section Steady.

Variable K : Constants.
Variable E : Env.
Variable p : Page.
Variable c : nat.

Hypothesis resolves : forall call n, env_unit E call n = None.
Hypothesis counts : forall i, env_count E i = Resolve c.
Hypothesis in_time : forall i j, env_now E j - env_now E i <= 30000.

Lemma detect_steady fuel w :
  _page w = Some p ->
  detect K E (S fuel) w
  = (Ok {| success := true; totalJobs := c |}, turn K p (counted K p w)).
Proof.
  intros Hp.
  rewrite (detect_unfold K E p (fun _ => c) counts (S fuel) w Hp).
  unfold bind.
  rewrite (scrollLoop_turn K E p (fun _ => c)); auto.
  rewrite Nat.eqb_refl. reflexivity.
Qed.

Lemma loadJobs_steady fuel w :
  _page w = Some p ->
  _loadJobs K E (S fuel) w
  = (Ok {| success := true; totalJobs := c |}, loaded K p w).
Proof.
  intros Hp.
  change (_loadJobs K E (S fuel) w)
    with (attempts E (detect K E (S fuel)) loadJobsConfig
                   (env_now E (seen KNow (log w))) 2 (push Now w)).
  apply attempts_Ok.
  - apply detect_steady. exact Hp.
  - unfold late. apply Z.ltb_ge. apply in_time.
Qed.

Lemma takeScreenshot_steady label w :
  _page w = Some p ->
  _takeScreenshot E label w = (Ok tt, captured p label w).
Proof.
  intros Hp. unfold _takeScreenshot, console, emit, call, bind, push,
               bump_screenshotCount, captured.
  cbn [_page _screenshotCount log]. rewrite Hp, resolves.
  reflexivity.
Qed.

Lemma paginate_steady w :
  _page w = Some p -> _paginate E 25 w = (Ok tt, paged E p w).
Proof.
  intros Hp. unfold _paginate. rewrite Hp.
  unfold bind, page_url, goto, call. rewrite resolves. reflexivity.
Qed.

(** One cycle of the quota loop. *)
Lemma searchLoop_cycle f0 f limit P w res :
  _page w = Some p ->
  P < limit ->
  env_extract E (seen KExtract (log w)) = Resolve res ->
  let w4 := extracted p c res (loaded K p w) in
  searchLoop E (_loadJobs K E (S f0)) p (S f) limit P w
  = if limit <=? P + Z.of_nat (List.length res)
    then (Ok None, captured p "🟢 Job limit reached" w4)
    else searchLoop E (_loadJobs K E (S f0)) p f limit
                    (P + Z.of_nat (List.length res)) (paged E p w4).
Proof.
  intros Hp HP Hres w4. cbn [searchLoop].
  apply Z.ltb_lt in HP. rewrite HP.
  rewrite (bind_Ok _ _ _ _ _ (loadJobs_steady f0 w Hp)).
  unfold bind at 1, emit. cbn [success negb totalJobs].
  rewrite (bind_Ok _ _ _ res
             (push (Extract p) (push (Console (LogTotal c)) (loaded K p w)))).
  2:{ unfold extractJobCardsData, ask. cbn [kind_of push log].
      seen_step. unfold loaded, turn, counted, logged. cbn [push log app].
      seen_step. rewrite seen_app, seen_rev.
      unfold waits. rewrite seen_waits by discriminate.
      seen_step. cbn [Nat.add]. rewrite Hres. reflexivity. }
  unfold bind at 1.
  change (push (Console (LogJobs res))
            (push (Extract p) (push (Console (LogTotal c)) (loaded K p w))))
    with w4.
  destruct (limit <=? P + Z.of_nat (List.length res)).
  - rewrite (bind_Ok _ _ _ tt (captured p "🟢 Job limit reached" w4)).
    + reflexivity.
    + apply takeScreenshot_steady. exact Hp.
  - rewrite (bind_Ok _ _ _ tt (paged E p w4)).
    + reflexivity.
    + apply paginate_steady. exact Hp.
Qed.

Lemma log_extracted res w :
  log (extracted p c res (loaded K p w))
  = (cycle_calls K p c res ++ log w)%list.
Proof.
  unfold extracted, loaded, turn, counted, logged, push, cycle_calls.
  cbn [log app]. rewrite <- app_assoc. reflexivity.
Qed.

Lemma seen_cycle_calls res :
  seen KExtract (cycle_calls K p c res) = 1%nat
  /\ seen KReadUrl (cycle_calls K p c res) = 0%nat
  /\ seen KGoto (cycle_calls K p c res) = 0%nat
  /\ seen KScreenshot (cycle_calls K p c res) = 0%nat
  /\ seen KNow (cycle_calls K p c res) = 2%nat.
Proof.
  unfold cycle_calls. cbn [app].
  repeat split; seen_step; rewrite seen_app, seen_rev;
    unfold waits; rewrite seen_waits by discriminate; reflexivity.
Qed.

Variable k : nat.
Variable limit : Z.

Hypothesis batches :
  forall i, match env_extract E i with
            | Resolve res => List.length res = k
            | Reject _ => False
            end.
Hypothesis k_pos : (0 < k)%nat.

Lemma batch_at i : exists res,
    env_extract E i = Resolve res /\ List.length res = k.
Proof.
  specialize (batches i). destruct (env_extract E i) as [res|e].
  - eauto.
  - contradiction.
Qed.

(** With [n] whole batches short of the limit and [n + 1] batches
    reaching it, the loop makes [n + 1] extractions and [n] paginations
    and ends in the capture of the reached limit. *)
Lemma searchLoop_steady f0 n : forall f P w,
  _page w = Some p ->
  P + Z.of_nat n * Z.of_nat k < limit ->
  limit <= P + Z.of_nat (S n) * Z.of_nat k ->
  (n < f)%nat ->
  exists new,
    searchLoop E (_loadJobs K E (S f0)) p f limit P w
    = (Ok None,
       {| _page := _page w;
          _screenshotCount := S (_screenshotCount w);
          log := new ++ log w |})
    /\ (seen KExtract new = S n
        /\ seen KReadUrl new = n
        /\ seen KGoto new = n
        /\ seen KScreenshot new = 1%nat
        /\ seen KNow new = (2 * S n)%nat)
    /\ exists res rest,
        new = Screenshot p (screenshot_path (_screenshotCount w)) true
              :: Console (LogText "📷 🟢 Job limit reached")
              :: Console (LogJobs res) :: Extract p :: rest.
Proof.
  induction n as [|n IH]; intros f P w Hp Hlow Hhigh Hf;
    (destruct f as [|f]; [lia|]);
    destruct (batch_at (seen KExtract (log w))) as [res [Hres Hlen]];
    rewrite (searchLoop_cycle f0 f limit P w res Hp)
      by (trivial; lia);
    rewrite Hlen;
    destruct (seen_cycle_calls res) as [C1 [C2 [C3 [C4 C5]]]].
  - replace (limit <=? P + Z.of_nat k) with true
      by (symmetry; apply Z.leb_le; lia).
    exists (Screenshot p (screenshot_path (_screenshotCount w)) true
            :: Console (LogText "📷 🟢 Job limit reached")
            :: cycle_calls K p c res).
    split; [|split].
    + unfold captured. rewrite log_extracted. reflexivity.
    + seen_step. rewrite C1, C2, C3, C4, C5. repeat split.
    + unfold cycle_calls. cbn [app]. eauto.
  - replace (limit <=? P + Z.of_nat k) with false
      by (symmetry; apply Z.leb_gt; lia).
    destruct (IH f (P + Z.of_nat k)
                 (paged E p (extracted p c res (loaded K p w))))
      as [new [Hrun [[N1 [N2 [N3 [N4 N5]]]] [res' [rest Hshape]]]]];
      try lia; [exact Hp|].
    exists (new ++ Goto p (URL_toString
                             (advance E
                                (env_url E
                                   (seen KReadUrl
                                      (log (extracted p c res
                                              (loaded K p w))))) 25))
                          (Some "load")
                :: ReadUrl p :: cycle_calls K p c res)%list.
    split; [|split].
    + rewrite Hrun. unfold paged, logged. cbn [_page _screenshotCount log app].
      rewrite log_extracted, <- app_assoc. reflexivity.
    + rewrite !seen_app. seen_step.
      rewrite N1, N2, N3, N4, N5, C1, C2, C3, C4, C5.
      repeat split; lia.
    + exists res', (rest ++ Goto p (URL_toString
                             (advance E
                                (env_url E
                                   (seen KReadUrl
                                      (log (extracted p c res
                                              (loaded K p w))))) 25))
                          (Some "load")
                :: ReadUrl p :: cycle_calls K p c res)%list.
      rewrite Hshape. reflexivity.
Qed.

Lemma searchJobs_steady keywords location n fuel w :
  _page w = Some p ->
  Z.of_nat n * Z.of_nat k < limit ->
  limit <= Z.of_nat (S n) * Z.of_nat k ->
  (n < fuel)%nat ->
  exists new,
    searchJobs K E keywords location limit fuel w
    = (Ok Undefined,
       {| _page := _page w;
          _screenshotCount := S (S (_screenshotCount w));
          log := Console LogCache
                 :: new
                 ++ [Screenshot p (screenshot_path (_screenshotCount w)) true;
                     Console (LogText "📷 Search jobs page");
                     Goto p (searchUrl K keywords location) (Some "load")]
                 ++ log w |})
    /\ (seen KExtract new = S n
        /\ seen KReadUrl new = n
        /\ seen KGoto new = n
        /\ seen KScreenshot new = 1%nat
        /\ seen KNow new = (2 * S n)%nat)
    /\ exists res rest,
        new = Screenshot p (screenshot_path (S (_screenshotCount w))) true
              :: Console (LogText "📷 🟢 Job limit reached")
              :: Console (LogJobs res) :: Extract p :: rest.
Proof.
  intros Hp Hlow Hhigh Hf. destruct fuel as [|f0]; [lia|].
  destruct (searchLoop_steady f0 n (S f0) 0
              (captured p "Search jobs page"
                 (push (Goto p (searchUrl K keywords location) (Some "load"))
                       w)))
    as [new [Hrun [Hseen Hshape]]]; trivial; try lia.
  exists new. split; [|split; [exact Hseen | exact Hshape]].
  unfold searchJobs, searchJobs_over. rewrite Hp.
  rewrite (bind_Ok _ _ _ tt
             (push (Goto p (searchUrl K keywords location) (Some "load")) w))
    by (apply call_run, resolves).
  rewrite (bind_Ok _ _ _ tt
             (captured p "Search jobs page"
                (push (Goto p (searchUrl K keywords location) (Some "load"))
                      w)))
    by (apply takeScreenshot_steady; exact Hp).
  rewrite (bind_Ok _ _ _ _ _ Hrun).
  unfold bind, emit, ret, push, captured. cbn [_page _screenshotCount log].
  rewrite Hp. reflexivity.
Qed.

End Steady.

Lemma during_logged k w w' new :
  log w' = (new ++ log w)%list -> during k w w' = seen k new.
Proof. intros H. unfold during. rewrite H, seen_app. lia. Qed.

(** C4: on a steady page where every extraction gives 10 records,
    [searchJobs] with a limit of 25 runs 3 convergence passes and 3
    extractions and advances the pagination twice; the third extraction is
    followed at once by the capture of the reached limit, not by a
    pagination, and the search ends. *)
Theorem searchJobs_quota_25_by_10 K E p c keywords location fuel w :
  (forall call n, env_unit E call n = None) ->
  (forall i, env_count E i = Resolve c) ->
  (forall i j, env_now E j - env_now E i <= 30000) ->
  (forall i, match env_extract E i with
             | Resolve res => List.length res = 10%nat
             | Reject _ => False
             end) ->
  _page w = Some p ->
  (3 <= fuel)%nat ->
  exists w',
    searchJobs K E keywords location 25 fuel w = (Ok Undefined, w')
    /\ during KExtract w w' = 3%nat
    /\ during KReadUrl w w' = 2%nat
    /\ during KGoto w w' = 3%nat
    /\ during KNow w w' = 6%nat
    /\ during KScreenshot w w' = 2%nat
    /\ exists path res rest,
        log w' = Console LogCache
                 :: Screenshot p path true
                 :: Console (LogText "📷 🟢 Job limit reached")
                 :: Console (LogJobs res) :: Extract p :: rest.
Proof.
  intros Hunit Hcount Hnow Hext Hp Hfuel.
  destruct (searchJobs_steady K E p c Hunit Hcount Hnow 10 25 Hext
              ltac:(lia) keywords location 2 fuel w Hp)
    as [new [Hrun [[N1 [N2 [N3 [N4 N5]]]] [res [rest Hshape]]]]]; try lia.
  eexists. split; [exact Hrun|].
  match goal with
  | |- context [during _ w ?w1] =>
      assert (Hlog : log w1
                     = ((Console LogCache
                         :: new
                         ++ [Screenshot p
                               (screenshot_path (_screenshotCount w)) true;
                             Console (LogText "📷 Search jobs page");
                             Goto p (searchUrl K keywords location)
                                  (Some "load")])
                        ++ log w)%list)
        by (cbn [log app]; rewrite <- app_assoc; reflexivity)
  end.
  rewrite !(during_logged _ _ _ _ Hlog).
  seen_step. rewrite !seen_app. seen_step.
  change (seen ?k []) with 0%nat.
  rewrite N1, N2, N3, N4, N5.
  repeat (split; [reflexivity|]).
  cbn [log]. rewrite Hshape. cbn [app]. eauto.
Qed.

Lemma searchJobs_quota_25_by_10_witness :
  exists w',
    searchJobs Sample.constants (Sample.steady true) "rocq" "Paris" 25 3
               Sample.ready = (Ok Undefined, w')
    /\ during KExtract Sample.ready w' = 3%nat
    /\ during KReadUrl Sample.ready w' = 2%nat.
Proof.
  destruct (searchJobs_quota_25_by_10
              Sample.constants (Sample.steady true) Sample.a_page 7
              "rocq" "Paris" 3 Sample.ready)
    as [w' [Hrun [H1 [H2 _]]]].
  - intros call n. reflexivity.
  - intros i. reflexivity.
  - intros i j. simpl. lia.
  - intros i. reflexivity.
  - reflexivity.
  - lia.
  - exists w'. repeat split; assumption.
Defined.

(** ** What [searchJobs] returns *)

Lemma searchLoop_result E load p limit fuel : forall P w r w',
  searchLoop E load p fuel limit P w = (Ok r, w') ->
  r = None
  \/ (r = Some (Jobs [])
      /\ exists w1 lr w2, load w1 = (Ok lr, w2) /\ success lr = false).
Proof.
  induction fuel as [|fuel IH]; intros P w r w' H; cbn [searchLoop] in H;
    destruct (P <? limit);
    try (injection H as <- <-; left; reflexivity);
    try discriminate.
  apply bind_inv_Ok in H. destruct H as [lr [w1 [Hload H]]].
  apply bind_inv_Ok in H. destruct H as [[] [w2 [_ H]]].
  destruct (success lr) eqn:Hs; cbn [negb] in H.
  - apply bind_inv_Ok in H. destruct H as [res [w3 [_ H]]].
    cbv zeta in H.
    apply bind_inv_Ok in H. destruct H as [[] [w4 [_ H]]].
    destruct (limit <=? P + Z.of_nat (List.length res)).
    + apply bind_inv_Ok in H. destruct H as [[] [w5 [_ H]]].
      injection H as <- <-. left. reflexivity.
    + apply bind_inv_Ok in H. destruct H as [[] [w5 [_ H]]].
      apply IH in H. exact H.
  - apply bind_inv_Ok in H. destruct H as [[] [w3 [_ H]]].
    injection H as <- <-. right. split; [reflexivity|]. eauto.
Qed.

(** Whatever [searchJobs] returns is [undefined] or the empty sequence,
    the latter only after a convergence pass has reported failure: no
    path returns a record. *)
Lemma searchJobs_result_shape K E load keywords location limit fuel w v w' :
  searchJobs_over K E load keywords location limit fuel w = (Ok v, w') ->
  v = Undefined
  \/ (v = Jobs []
      /\ exists w1 lr w2, load w1 = (Ok lr, w2) /\ success lr = false).
Proof.
  intros H.
  unfold searchJobs_over in H. destruct (_page w) as [p|]; [|discriminate].
  apply bind_inv_Ok in H. destruct H as [[] [w1 [_ H]]].
  apply bind_inv_Ok in H. destruct H as [[] [w2 [_ H]]].
  apply bind_inv_Ok in H. destruct H as [r [w3 [Hloop H]]].
  apply searchLoop_result in Hloop.
  destruct Hloop as [-> | [-> Hfail]].
  - apply bind_inv_Ok in H. destruct H as [[] [w4 [_ H]]].
    injection H as <- <-. left. reflexivity.
  - injection H as <- <-. right. split; [reflexivity | exact Hfail].
Qed.

(** C2, at a search with limit 25 on a page whose three extractions give
    ten records each: every convergence pass succeeds, the three
    extractions are made, the search ends well, and what it returns is
    [undefined], not the sequence of the extracted records.  The loop is
    left by [break] and the method ends on a print, with no [return]. *)
Theorem searchJobs_returns_no_records :
  let r := searchJobs Sample.constants (Sample.steady true) "rocq" "Paris"
                      25 9 Sample.ready in
  fst r = Ok Undefined
  /\ seen KExtract (log (snd r)) = 3%nat
  /\ In (Console (LogJobs Sample.ten)) (log (snd r))
  /\ fst r <> Ok (Jobs (Sample.ten ++ Sample.ten ++ Sample.ten)).
Proof.
  vm_compute. repeat split; auto 40. discriminate.
Qed.

(** * Further properties *)

(** ** Reading back what a pagination wrote *)

Lemma digits_step acc c r :
  Text.is_digit c = true ->
  Text.digits_from (Some acc) (String c r)
  = Text.digits_from (Some (10 * acc + Text.digit_val c)) r.
Proof. intros H. cbn [Text.digits_from]. rewrite H. reflexivity. Qed.

Lemma digits_pos_acc d : forall acc rest,
  Text.digits_from (Some (Zpos acc)) (NilEmpty.string_of_uint d ++ rest)
  = Text.digits_from (Some (Zpos (Pos.of_uint_acc d acc))) rest.
Proof.
  induction d; intros acc rest; cbn [NilEmpty.string_of_uint append Pos.of_uint_acc];
    try reflexivity;
    rewrite digits_step by reflexivity;
    rewrite <- IHd; f_equal; f_equal;
    match goal with
    | |- context [Text.digit_val ?c] =>
        let v := eval vm_compute in (Text.digit_val c) in
        change (Text.digit_val c) with v
    end; lia.
Qed.

Lemma digits_pos d : forall rest,
  Text.digits_from (Some 0) (NilEmpty.string_of_uint d ++ rest)
  = Text.digits_from (Some (Z.of_N (Pos.of_uint d))) rest.
Proof.
  induction d; intros rest; cbn [NilEmpty.string_of_uint append Pos.of_uint];
    try reflexivity;
    rewrite digits_step by reflexivity;
    try (rewrite <- IHd; reflexivity);
    apply (digits_pos_acc d _ rest).
Qed.

Lemma digits_start c r :
  Text.is_digit c = true ->
  Text.digits_from None (String c r) = Text.digits_from (Some 0) (String c r).
Proof. intros H. cbn [Text.digits_from]. rewrite H. reflexivity. Qed.

Lemma pos_to_uint_head p :
  exists c r, NilEmpty.string_of_uint (Pos.to_uint p) = String c r
              /\ Text.is_digit c = true.
Proof.
  pose proof (DecimalPos.Unsigned.of_to p) as H.
  destruct (Pos.to_uint p) eqn:E; try discriminate;
    cbn [NilEmpty.string_of_uint]; eexists; eexists; split; reflexivity.
Qed.

Lemma skip_ws_lead c r :
  Text.is_digit c = true \/ c = "-"%char ->
  Text.skip_ws (String c r) = String c r.
Proof.
  intros H.
  destruct c as [[|] [|] [|] [|] [|] [|] [|] [|]];
    (destruct H as [H|H]; [try discriminate H | try discriminate H]);
    destruct r as [|c1 [|c2 r2]]; reflexivity.
Qed.

Lemma parseInt_digits c r :
  Text.is_digit c = true ->
  parseInt (String c r)
  = match Text.digits_from (Some 0) (String c r) with
    | Some v => Int v
    | None => NaN
    end.
Proof.
  intros Hc. unfold parseInt. rewrite skip_ws_lead by (left; exact Hc).
  assert (Hsign : c <> "-"%char /\ c <> "+"%char).
  { split; intros ->; discriminate Hc. }
  destruct Hsign as [Hm Hp].
  replace (match String c r with
           | String "-" r0 => (true, r0)
           | String "+" r0 => (false, r0)
           | _ => (false, String c r)
           end) with (false, String c r).
  - rewrite digits_start by exact Hc. reflexivity.
  - destruct c as [[|] [|] [|] [|] [|] [|] [|] [|]];
      try reflexivity; try discriminate Hc.
Qed.

Lemma parseInt_minus_digits c r :
  Text.is_digit c = true ->
  parseInt (String "-" (String c r))
  = match Text.digits_from (Some 0) (String c r) with
    | Some v => Int (- v)
    | None => NaN
    end.
Proof.
  intros Hc. unfold parseInt. rewrite skip_ws_lead by (right; reflexivity).
  rewrite digits_start by exact Hc. reflexivity.
Qed.

Lemma digits_of_pos p :
  exists c r,
    NilZero.string_of_uint (Pos.to_uint p) = String c r
    /\ Text.is_digit c = true
    /\ Text.digits_from (Some 0) (String c r) = Some (Zpos p).
Proof.
  pose proof (DecimalPos.Unsigned.of_to p) as Hof.
  pose proof (digits_pos (Pos.to_uint p) "") as Hd.
  rewrite Hof in Hd.
  assert (Happ : forall s : string, s ++ "" = s).
  { induction s as [|a s IH]; simpl; [|rewrite IH]; reflexivity. }
  rewrite Happ in Hd.
  destruct (Pos.to_uint p) eqn:E; try discriminate Hof;
    cbn [NilZero.string_of_uint NilEmpty.string_of_uint] in *;
    eexists; eexists; (split; [reflexivity|]); (split; [reflexivity|]);
    exact Hd.
Qed.

Lemma parseInt_of_Z z : parseInt (Text.of_Z z) = Int z.
Proof.
  unfold Text.of_Z.
  destruct z as [|p|p]; [reflexivity| |];
    cbn [Z.to_int NilZero.string_of_int];
    destruct (digits_of_pos p) as [c [r [Hs [Hc Hd]]]]; rewrite Hs.
  - rewrite parseInt_digits, Hd by exact Hc. reflexivity.
  - rewrite parseInt_minus_digits, Hd by exact Hc. reflexivity.
Qed.

Lemma of_Z_nonempty z : exists c r, Text.of_Z z = String c r.
Proof.
  unfold Text.of_Z. destruct z as [|p|p]; cbn [Z.to_int NilZero.string_of_int].
  - eexists. eexists. reflexivity.
  - destruct (digits_of_pos p) as [c [r [Hs _]]]. eauto.
  - eauto.
Qed.

Lemma offset_of_written (ps : list (string * string)) h f z :
  offset_of {| url_head := h;
               searchParams := SearchParams.set "start" (Text.of_Z z) ps;
               url_hash := f |} = Int z.
Proof.
  unfold offset_of. cbn [searchParams]. rewrite get_set.
  destruct (of_Z_nonempty z) as [c [r Hs]].
  assert (Hz : or_zero (Some (Text.of_Z z)) = Text.of_Z z)
    by (rewrite Hs; reflexivity).
  rewrite Hz. apply parseInt_of_Z.
Qed.

Lemma safe_iff z : safe z = true <-> - 9007199254740992 <= z <= 9007199254740992.
Proof.
  unfold safe. change (2 ^ 53) with 9007199254740992.
  rewrite Z.leb_le. lia.
Qed.

Lemma advance_exact E v z :
  offset_of v = Int z ->
  - 9007199254740992 <= z ->
  z + 25 <= 9007199254740992 ->
  advance E v 25
  = {| url_head := url_head v;
       searchParams :=
         SearchParams.set "start" (Text.of_Z (z + 25)) (searchParams v);
       url_hash := url_hash v |}.
Proof.
  intros Hoff Hlow Hhigh. unfold advance. unfold offset_of in Hoff.
  rewrite Hoff. unfold number_text.
  assert (H1 : safe z = true) by (apply safe_iff; lia).
  assert (H2 : safe (z + 25) = true) by (apply safe_iff; lia).
  rewrite H1, H2. reflexivity.
Qed.

(** X1: [n] paginations in a row, each landing on the address it was sent
    to, move the offset from [s] to [s + 25 n], as long as the offsets
    stay in the range where doubles are exact: what one pagination writes
    is what the next one reads. *)
Theorem advance_n_offset E u s n :
  offset_of u = Int s ->
  - 9007199254740992 <= s ->
  s + 25 * Z.of_nat n <= 9007199254740992 ->
  offset_of (advance_n E n u) = Int (s + 25 * Z.of_nat n)
  /\ ((0 < n)%nat ->
      SearchParams.get "start" (searchParams (advance_n E n u))
      = Some (Text.of_Z (s + 25 * Z.of_nat n))).
Proof.
  intros Hoff Hlow. induction n as [|n IH]; intros Hhigh.
  - split; [|lia]. change (advance_n E 0 u) with u. rewrite Hoff. f_equal. lia.
  - destruct IH as [IH _]; [lia|].
    change (advance_n E (S n) u) with (advance E (advance_n E n u) 25).
    rewrite (advance_exact E _ _ IH) by lia.
    replace (s + 25 * Z.of_nat (S n)) with (s + 25 * Z.of_nat n + 25) by lia.
    split.
    + apply offset_of_written.
    + intros _. cbn [searchParams]. apply get_set.
Qed.

Lemma advance_n_offset_witness :
  SearchParams.get "start"
    (searchParams (advance_n (Sample.steady true) 4 (Sample.page_at "50")))
  = Some "150".
Proof.
  destruct (advance_n_offset (Sample.steady true) (Sample.page_at "50") 50 4)
    as [_ H].
  - reflexivity.
  - lia.
  - simpl. lia.
  - apply H. lia.
Defined.

Lemma get_drop_other name other ps :
  name <> other ->
  SearchParams.get name (SearchParams.drop other ps) = SearchParams.get name ps.
Proof.
  intros Hne. induction ps as [|[k v] r IH]; [reflexivity|].
  unfold SearchParams.drop in *. cbn [filter fst SearchParams.get].
  destruct (String.eqb k other) eqn:Hk; cbn [negb].
  - apply String.eqb_eq in Hk. subst k.
    destruct (String.eqb other name) eqn:Hn.
    + apply String.eqb_eq in Hn. congruence.
    + exact IH.
  - cbn [SearchParams.get]. destruct (String.eqb k name); [reflexivity|exact IH].
Qed.

Lemma get_set_other name value ps :
  name <> "start" ->
  SearchParams.get name (SearchParams.set "start" value ps)
  = SearchParams.get name ps.
Proof.
  intros Hne. induction ps as [|[k v] r IH]; cbn [SearchParams.set SearchParams.get].
  - destruct (String.eqb "start" name) eqn:Hn; [|reflexivity].
    apply String.eqb_eq in Hn. congruence.
  - destruct (String.eqb k "start") eqn:Hk; cbn [SearchParams.get].
    + apply String.eqb_eq in Hk. subst k.
      destruct (String.eqb "start" name) eqn:Hn.
      * apply String.eqb_eq in Hn. congruence.
      * apply get_drop_other. exact Hne.
    + destruct (String.eqb k name); [reflexivity|exact IH].
Qed.

Lemma drop_none name ps :
  SearchParams.get name (SearchParams.drop name ps) = None.
Proof.
  induction ps as [|[k v] r IH]; [reflexivity|].
  unfold SearchParams.drop in *. cbn [filter fst].
  destruct (String.eqb k name) eqn:Hk; cbn [negb]; [exact IH|].
  cbn [SearchParams.get]. rewrite Hk. exact IH.
Qed.

Lemma drop_drop name ps :
  SearchParams.drop name (SearchParams.drop name ps) = SearchParams.drop name ps.
Proof.
  unfold SearchParams.drop. induction ps as [|[k v] r IH]; [reflexivity|].
  cbn [filter fst]. destruct (String.eqb k name) eqn:Hk; cbn [negb].
  - exact IH.
  - cbn [filter fst]. rewrite Hk. cbn [negb]. rewrite IH. reflexivity.
Qed.

Lemma drop_set name value ps :
  SearchParams.drop name (SearchParams.set name value ps)
  = SearchParams.drop name ps.
Proof.
  induction ps as [|[k v] r IH]; cbn [SearchParams.set].
  - unfold SearchParams.drop. cbn [filter fst].
    rewrite String.eqb_refl. reflexivity.
  - destruct (String.eqb k name) eqn:Hk.
    + unfold SearchParams.drop at 1 3. cbn [filter fst]. rewrite Hk.
      cbn [negb]. apply drop_drop.
    + unfold SearchParams.drop in *. cbn [filter fst]. rewrite Hk.
      cbn [negb]. rewrite IH. reflexivity.
Qed.

Lemma named_drop name ps :
  filter (fun kv => String.eqb (fst kv) name) (SearchParams.drop name ps) = [].
Proof.
  unfold SearchParams.drop. induction ps as [|[k v] r IH]; [reflexivity|].
  cbn [filter fst]. destruct (String.eqb k name) eqn:Hk; cbn [negb].
  - exact IH.
  - cbn [filter fst]. rewrite Hk. exact IH.
Qed.

Lemma named_set name value ps :
  filter (fun kv => String.eqb (fst kv) name) (SearchParams.set name value ps)
  = [(name, value)].
Proof.
  induction ps as [|[k v] r IH]; cbn [SearchParams.set].
  - cbn [filter fst]. rewrite String.eqb_refl. reflexivity.
  - destruct (String.eqb k name) eqn:Hk; cbn [filter fst]; rewrite Hk.
    + apply String.eqb_eq in Hk. subst k. rewrite named_drop. reflexivity.
    + exact IH.
Qed.

Lemma set_absent name value ps :
  SearchParams.get name ps = None ->
  SearchParams.set name value ps = (ps ++ [(name, value)])%list.
Proof.
  induction ps as [|[k v] r IH]; cbn [SearchParams.get SearchParams.set app].
  - reflexivity.
  - destruct (String.eqb k name); [discriminate|].
    intros H. rewrite (IH H). reflexivity.
Qed.

Lemma set_present name value before old after :
  SearchParams.get name before = None ->
  SearchParams.set name value (before ++ (name, old) :: after)
  = (before ++ (name, value) :: SearchParams.drop name after)%list.
Proof.
  induction before as [|[k v] r IH];
    cbn [SearchParams.get SearchParams.set app].
  - intros _. rewrite String.eqb_refl. reflexivity.
  - destruct (String.eqb k name); [discriminate|].
    intros H. rewrite (IH H). reflexivity.
Qed.

(** X2: a pagination rewrites [start] and nothing else.  The part of the
    address before the query and the fragment are kept.  The pairs of
    every other name are kept, all of them and in their order.  The new
    list has one [start] pair, with the new offset: in the place of the
    first old one, the later old ones being dropped, or at the end when
    there was none. *)
Theorem advance_keeps_the_rest E u size :
  let ps := searchParams u in
  let ps' := searchParams (advance E u size) in
  let v := number_text E (offset_of u) size in
  url_head (advance E u size) = url_head u
  /\ url_hash (advance E u size) = url_hash u
  /\ SearchParams.drop "start" ps' = SearchParams.drop "start" ps
  /\ filter (fun kv => String.eqb (fst kv) "start") ps' = [("start", v)]
  /\ (SearchParams.get "start" ps = None ->
      ps' = (ps ++ [("start", v)])%list)
  /\ (forall before old after,
         ps = (before ++ ("start", old) :: after)%list ->
         SearchParams.get "start" before = None ->
         ps' = (before ++ ("start", v) :: SearchParams.drop "start" after)%list).
Proof.
  cbv zeta. unfold advance, offset_of. cbn [url_head url_hash searchParams].
  split; [reflexivity|]. split; [reflexivity|].
  split; [apply drop_set|]. split; [apply named_set|]. split.
  - apply set_absent.
  - intros before old after Hps Hb. rewrite Hps. apply set_present. exact Hb.
Qed.

Lemma advance_keeps_the_rest_witness :
  searchParams
    (advance (Sample.steady true)
       {| url_head := "https://www.linkedin.com/jobs/search";
          searchParams := [("keywords", "a"); ("start", "5");
                           ("keywords", "b"); ("start", "9")];
          url_hash := "" |} 25)
  = [("keywords", "a"); ("start", "30"); ("keywords", "b")]
  /\ searchParams
       (advance (Sample.steady true)
          {| url_head := "https://www.linkedin.com/jobs/search";
             searchParams := [("keywords", "a"); ("keywords", "b")];
             url_hash := "" |} 25)
     = [("keywords", "a"); ("keywords", "b"); ("start", "25")].
Proof.
  split.
  - destruct (advance_keeps_the_rest (Sample.steady true)
                {| url_head := "https://www.linkedin.com/jobs/search";
                   searchParams := [("keywords", "a"); ("start", "5");
                                    ("keywords", "b"); ("start", "9")];
                   url_hash := "" |} 25) as [_ [_ [_ [_ [_ H]]]]].
    apply (H [("keywords", "a")] "5" [("keywords", "b"); ("start", "9")]);
      reflexivity.
  - destruct (advance_keeps_the_rest (Sample.steady true)
                {| url_head := "https://www.linkedin.com/jobs/search";
                   searchParams := [("keywords", "a"); ("keywords", "b")];
                   url_hash := "" |} 25) as [_ [_ [_ [_ [H _]]]]].
    apply H. reflexivity.
Defined.

(** ** The files of the captures *)

Lemma digits_nat_acc d : forall acc rest,
  Text.digits_from (Some (Z.of_nat acc)) (NilEmpty.string_of_uint d ++ rest)
  = Text.digits_from (Some (Z.of_nat (Nat.of_uint_acc d acc))) rest.
Proof.
  induction d; intros acc rest;
    cbn [NilEmpty.string_of_uint append Nat.of_uint_acc];
    try reflexivity;
    rewrite digits_step by reflexivity;
    rewrite <- IHd; f_equal; f_equal;
    match goal with
    | |- context [Text.digit_val ?c] =>
        let v := eval vm_compute in (Text.digit_val c) in
        change (Text.digit_val c) with v
    end; rewrite Nat.tail_mul_spec; lia.
Qed.

Lemma digits_of_nat n rest :
  exists c r,
    Text.of_nat n = String c r
    /\ Text.is_digit c = true
    /\ Text.digits_from (Some 0) (Text.of_nat n ++ rest)
       = Text.digits_from (Some (Z.of_nat n)) rest.
Proof.
  unfold Text.of_nat.
  pose proof (DecimalNat.Unsigned.of_to n) as Hof.
  pose proof (digits_nat_acc (Nat.to_uint n) 0 rest) as Hd.
  fold (Nat.of_uint (Nat.to_uint n)) in Hd. rewrite Hof in Hd.
  change (Z.of_nat 0) with 0 in Hd.
  destruct (Nat.to_uint n) eqn:E;
    cbn [NilZero.string_of_uint NilEmpty.string_of_uint] in *;
    try (eexists; eexists; (split; [reflexivity|]); (split; [reflexivity|]);
         exact Hd).
Qed.

Lemma digits_zeros k : forall t,
  Text.digits_from (Some 0) (Text.zeros k ++ t) = Text.digits_from (Some 0) t.
Proof.
  induction k as [|k IH]; intros t; [reflexivity|].
  cbn [Text.zeros append]. rewrite digits_step by reflexivity. apply IH.
Qed.

Lemma digits_padded n :
  Text.digits_from None (Text.padStart0 5 (Text.of_nat n) ++ "_page.png")
  = Some (Z.of_nat n).
Proof.
  unfold Text.padStart0.
  destruct (digits_of_nat n "_page.png") as [c [r [Hs [Hc Hd]]]].
  assert (H0 : Text.digits_from None
                 ((Text.zeros (5 - String.length (Text.of_nat n))
                   ++ Text.of_nat n) ++ "_page.png")
               = Text.digits_from (Some 0)
                   ((Text.zeros (5 - String.length (Text.of_nat n))
                     ++ Text.of_nat n) ++ "_page.png")).
  { destruct (5 - String.length (Text.of_nat n))%nat.
    - cbn [Text.zeros append]. rewrite Hs. cbn [append].
      apply digits_start. exact Hc.
    - cbn [Text.zeros append]. apply digits_start. reflexivity. }
  rewrite H0.
  assert (Hassoc : forall a b c0 : string, (a ++ b) ++ c0 = a ++ b ++ c0).
  { induction a as [|x a IH]; intros; cbn [append]; [|rewrite IH]; reflexivity. }
  rewrite Hassoc, digits_zeros, Hd. reflexivity.
Qed.

Lemma append_cancel_l p : forall a b : string, p ++ a = p ++ b -> a = b.
Proof.
  induction p as [|x p IH]; intros a b H; cbn [append] in H; [exact H|].
  injection H as H. apply IH. exact H.
Qed.

(** X3: the path of a capture determines its number: captures with
    different numbers never go to the same file, also past 99999 where the
    number outgrows its five digits. *)
Theorem screenshot_path_injective n m :
  screenshot_path n = screenshot_path m -> n = m.
Proof.
  unfold screenshot_path. intros H. apply append_cancel_l in H.
  apply (f_equal (Text.digits_from None)) in H.
  rewrite !digits_padded in H. injection H as H. lia.
Qed.

Lemma screenshot_path_injective_witness : (7 = 3 + 4)%nat.
Proof.
  apply (screenshot_path_injective 7 (3 + 4)). reflexivity.
Defined.

(** ** What a search leaves alone *)

Lemma within_refl w : within w w.
Proof.
  unfold within. repeat split; auto. apply Forall_forall. reflexivity.
Qed.

Lemma within_trans w1 w2 w3 : within w1 w2 -> within w2 w3 -> within w1 w3.
Proof.
  unfold within. intros [P1 [C1 S1]] [P2 [C2 S2]].
  split; [congruence|]. split; [lia|].
  rewrite Forall_forall in *. intros k Hk.
  rewrite (S2 k Hk). apply S1, Hk.
Qed.

Lemma within_push c w : quiet c = true -> within w (push c w).
Proof.
  intros Hq. unfold within, push. cbn [_page _screenshotCount log].
  split; [reflexivity|]. split; [lia|].
  apply Forall_forall. intros k Hk. rewrite seen_cons.
  unfold quiet in Hq. rewrite forallb_forall in Hq.
  specialize (Hq k Hk). destruct (is_kind k c); [discriminate | reflexivity].
Qed.

Lemma keeps_ret {A} (a : A) : keeps (ret a).
Proof. intros w. apply within_refl. Qed.

Lemma keeps_throw {A} e : keeps (@throw A e).
Proof. intros w. apply within_refl. Qed.

Lemma keeps_bind {A B} (m : M A) (f : A -> M B) :
  keeps m -> (forall a, keeps (f a)) -> keeps (bind m f).
Proof.
  intros Hm Hf w. unfold bind. specialize (Hm w).
  destruct (m w) as [[a|e|] w1]; cbn [snd] in *; trivial.
  apply (within_trans _ _ _ Hm). apply Hf.
Qed.

Lemma keeps_emit c : quiet c = true -> keeps (emit c).
Proof. intros Hq w. apply within_push, Hq. Qed.

Lemma keeps_call E c : quiet c = true -> keeps (call E c).
Proof.
  intros Hq w. unfold call.
  destruct (env_unit E c _); apply within_push, Hq.
Qed.

Lemma keeps_ask {A} c (answer : nat -> Answer A) :
  quiet c = true -> keeps (ask c answer).
Proof.
  intros Hq w. unfold ask.
  destruct (answer _); apply within_push, Hq.
Qed.

Lemma keeps_takeScreenshot E label : keeps (_takeScreenshot E label).
Proof.
  unfold _takeScreenshot. apply keeps_bind; [apply keeps_emit; reflexivity|].
  intros _. apply keeps_bind.
  - intros w. destruct (_page w); [apply keeps_call; reflexivity|].
    apply within_refl.
  - intros _ w. unfold bump_screenshotCount, within.
    cbn [snd _page _screenshotCount log].
    split; [reflexivity|]. split; [lia|]. apply Forall_forall. reflexivity.
Qed.

Lemma keeps_paginate E size : keeps (_paginate E size).
Proof.
  intros w. unfold _paginate. destruct (_page w) as [p|].
  - apply keeps_bind.
    + intros w0. apply within_push. reflexivity.
    + intros url. apply keeps_call. reflexivity.
  - apply within_refl.
Qed.

Lemma keeps_allSettled p sels :
  keeps (allSettled
           (map (fun selector => WaitForSelector p selector 3000 "detached")
                sels)).
Proof.
  induction sels as [|s r IH]; cbn [map allSettled].
  - apply keeps_ret.
  - apply keeps_bind; [apply keeps_emit; reflexivity | intros _; exact IH].
Qed.

Lemma keeps_scrollLoop K E p fuel : forall count,
  keeps (scrollLoop K E fuel p count).
Proof.
  induction fuel as [|fuel IH]; intros count; cbn [scrollLoop].
  - intros w. apply within_refl.
  - apply keeps_bind; [apply keeps_call; reflexivity|]. intros _.
    apply keeps_bind; [apply keeps_call; reflexivity|]. intros _.
    apply keeps_bind; [apply keeps_ask; reflexivity|]. intros currentCount.
    destruct (Nat.eqb currentCount count); [apply keeps_ret | apply IH].
Qed.

Lemma keeps_detect K E fuel : keeps (detect K E fuel).
Proof.
  intros w. unfold detect. destruct (_page w) as [p|].
  - apply keeps_bind; [apply keeps_allSettled|]. intros _.
    apply keeps_bind; [apply keeps_ask; reflexivity|]. intros count.
    apply keeps_bind; [apply keeps_scrollLoop|]. intros count'.
    apply keeps_ret.
  - apply within_refl.
Qed.

Lemma keeps_now E : keeps (now E).
Proof. intros w. apply within_push. reflexivity. Qed.

Lemma keeps_attempts {A} E (op : M A) cfg start more :
  keeps op -> keeps (attempts E op cfg start more).
Proof.
  intros Hop. induction more as [|more IH]; intros w; cbn [attempts];
    specialize (Hop w); destruct (op w) as [[a|e|] w1]; cbn [snd] in *;
    trivial; apply (within_trans _ _ _ Hop);
    apply keeps_bind; try apply keeps_now; intros t;
    destruct (timeout cfg <? t - start);
    try apply keeps_throw; try apply keeps_ret.
  apply keeps_bind; [apply keeps_emit; reflexivity | intros _; exact IH].
Qed.

Lemma keeps_loadJobs K E fuel : keeps (_loadJobs K E fuel).
Proof.
  unfold _loadJobs, retry. apply keeps_bind; [apply keeps_now|].
  intros start. apply keeps_attempts, keeps_detect.
Qed.

Lemma keeps_searchLoop E load p limit fuel :
  keeps load -> forall P, keeps (searchLoop E load p fuel limit P).
Proof.
  intros Hload. induction fuel as [|fuel IH]; intros P; cbn [searchLoop];
    destruct (P <? limit); try apply keeps_ret;
    try (intros w; apply within_refl).
  apply keeps_bind; [exact Hload|]. intros r.
  apply keeps_bind; [apply keeps_emit; reflexivity|]. intros _.
  destruct (negb (success r)).
  - apply keeps_bind; [apply keeps_takeScreenshot | intros _; apply keeps_ret].
  - apply keeps_bind; [apply keeps_ask; reflexivity|]. intros res. cbv zeta.
    apply keeps_bind; [apply keeps_emit; reflexivity|]. intros _.
    destruct (limit <=? P + Z.of_nat (List.length res)).
    + apply keeps_bind; [apply keeps_takeScreenshot | intros _; apply keeps_ret].
    + apply keeps_bind; [apply keeps_paginate | intros _; apply IH].
Qed.

Lemma keeps_searchJobs_over K E load keywords location limit fuel :
  keeps load -> keeps (searchJobs_over K E load keywords location limit fuel).
Proof.
  intros Hload w. unfold searchJobs_over. destruct (_page w) as [p|].
  - apply keeps_bind; [apply keeps_call; reflexivity|]. intros _.
    apply keeps_bind; [apply keeps_takeScreenshot|]. intros _.
    apply keeps_bind; [apply keeps_searchLoop; exact Hload|]. intros r.
    destruct r; [apply keeps_ret|].
    apply keeps_bind; [apply keeps_emit; reflexivity | intros _; apply keeps_ret].
  - apply within_refl.
Qed.

(** X4: whatever the outside answers and however the search ends
    (a value, a throw, or no end), [searchJobs] leaves the page handle as
    it was, never lowers the capture counter and makes no call that opens,
    authenticates or closes a session: no launch, context, cookie, new
    page, login check or browser close.  The same holds for [_loadJobs]
    and [_paginate] on their own. *)
Theorem searchJobs_keeps_session K E keywords location limit fuel w :
  within w (snd (searchJobs K E keywords location limit fuel w))
  /\ within w (snd (_loadJobs K E fuel w))
  /\ within w (snd (_paginate E 25 w)).
Proof.
  split; [|split].
  - apply keeps_searchJobs_over, keeps_loadJobs.
  - apply keeps_loadJobs.
  - apply keeps_paginate.
Qed.

(** ** Sessions: opening, failing, reopening, closing *)

(** X5: an [initialize] that ends well has made, in this order, the
    launch, the context, the injection of the one [li_at] cookie for
    [.linkedin.com] and [/], the new page, the navigation to the home
    address, the login check and one capture; it has installed the new
    page and advanced the capture counter by one.  It ends well whenever
    every call resolves. *)
Theorem initialize_opens K E liAtCookie w :
  (forall w', initialize K E liAtCookie w = (Ok tt, w') ->
              w' = opened K liAtCookie w)
  /\ ((forall call n, env_unit E call n = None) ->
      initialize K E liAtCookie w = (Ok tt, opened K liAtCookie w)).
Proof.
  split.
  - intros w'. apply initialize_Ok_opened.
  - apply initialize_resolves.
Qed.

Lemma initialize_opens_witness :
  initialize Sample.constants (Sample.steady true) "AQEDA" fresh
  = (Ok tt, opened Sample.constants "AQEDA" fresh).
Proof.
  apply (initialize_opens Sample.constants (Sample.steady true) "AQEDA" fresh).
  intros call n. reflexivity.
Defined.

(** X6: when the launch resolves and the context, the cookie injection or
    the new page then rejects, [initialize] throws that rejection with the
    page handle as it was: a browser has been launched and none closed,
    and on a scraper that had no page [close] afterwards does nothing, so
    the launched browser stays open. *)
Theorem initialize_can_orphan_browser K E liAtCookie w e :
  let b := seen KLaunch (log w) in
  env_unit E Launch b = None ->
  env_unit E (NewContext b) (seen KNewContext (log w)) = Some e
  \/ (env_unit E (NewContext b) (seen KNewContext (log w)) = None
      /\ (env_unit E (AddCookies b [li_at liAtCookie])
                   (seen KAddCookies (log w)) = Some e
          \/ (env_unit E (AddCookies b [li_at liAtCookie])
                       (seen KAddCookies (log w)) = None
              /\ env_unit E (NewPage b) (seen KNewPage (log w)) = Some e))) ->
  let r := initialize K E liAtCookie w in
  fst r = Throw e
  /\ _page (snd r) = _page w
  /\ seen KLaunch (log (snd r)) = S b
  /\ seen KCloseBrowser (log (snd r)) = seen KCloseBrowser (log w)
  /\ (_page w = None -> close E (snd r) = (Ok tt, snd r)).
Proof.
  intros b Hlaunch Hfail r. subst r b. unfold close. run_initialize.
  unfold li_at in Hfail. rewrite Hlaunch. cbn [fst snd log _page].
  seen_step.
  destruct Hfail as [H1 | [H1 [H2 | [H2 H3]]]]; rewrite H1; simpl;
    seen_step; try rewrite H2; simpl; seen_step; try rewrite H3; simpl;
    seen_step; repeat split; intros Hp; rewrite Hp; reflexivity.
Qed.

Lemma initialize_can_orphan_browser_witness :
  let E := with_visible Sample.no_disk (fun _ => Resolve true) in
  let E' := {| env_unit := fun c _ => match c with
                                      | NewContext _ => Some (Failure 3)
                                      | _ => None
                                      end;
               env_visible := env_visible E;
               env_count := env_count E;
               env_extract := env_extract E;
               env_url := env_url E;
               env_now := env_now E;
               env_inexact := env_inexact E |} in
  let r := initialize Sample.constants E' "AQEDA" fresh in
  fst r = Throw (Failure 3)
  /\ seen KLaunch (log (snd r)) = 1%nat
  /\ close E' (snd r) = (Ok tt, snd r).
Proof.
  intros E E' r.
  destruct (initialize_can_orphan_browser Sample.constants E' "AQEDA" fresh
              (Failure 3)) as [H1 [_ [H3 [_ H5]]]].
  - reflexivity.
  - left. reflexivity.
  - split; [exact H1|]. split; [exact H3|]. apply H5. reflexivity.
Defined.

(** X7: when the navigation to the home address rejects after the page
    has been opened, [initialize] throws that rejection but the new page
    is installed all the same: the scraper counts as initialized, and
    [close] releases the launched browser. *)
Theorem initialize_failed_navigation_keeps_page K E liAtCookie w e :
  (forall call n, kind_of call <> KGoto -> env_unit E call n = None) ->
  env_unit E (Goto (page_opened w) (LI_home K) None) (seen KGoto (log w))
  = Some e ->
  let r := initialize K E liAtCookie w in
  fst r = Throw e
  /\ _page (snd r) = Some (page_opened w)
  /\ _screenshotCount (snd r) = _screenshotCount w
  /\ log (snd (close E (snd r)))
     = CloseBrowser (seen KLaunch (log w)) :: log (snd r).
Proof.
  intros Hunit Hgoto r. subst r. unfold close. run_initialize.
  unfold page_opened in Hgoto.
  repeat (match goal with
          | |- context [env_unit E ?c ?n] =>
              rewrite (Hunit c n) by (cbn; discriminate)
          end; simpl; seen_step).
  match goal with
  | |- context [env_unit E ?c ?n] =>
      let Hg := fresh "Hg" in
      destruct (env_unit E c n) eqn:Hg;
      pose proof (eq_trans (eq_sym Hg) Hgoto) as Heq;
      [injection Heq as -> | discriminate Heq]
  end.
  cbn [fst snd _page page_browser log]. unfold bind, call, set_page.
  cbn [kind_of].
  repeat (match goal with
          | |- context [env_unit E ?c ?n] =>
              rewrite (Hunit c n) by (cbn; discriminate)
          end; cbn [fst snd _page page_browser log push]).
  repeat split.
Qed.

Lemma initialize_failed_navigation_keeps_page_witness :
  let E := {| env_unit := fun c _ => match c with
                                     | Goto _ _ _ => Some (Failure 4)
                                     | _ => None
                                     end;
              env_visible := fun _ => Resolve true;
              env_count := fun _ => Resolve 7%nat;
              env_extract := fun _ => Resolve Sample.ten;
              env_url := fun _ => Sample.page_at "0";
              env_now := fun _ => 0;
              env_inexact := fun _ _ => "" |} in
  let r := initialize Sample.constants E "AQEDA" fresh in
  fst r = Throw (Failure 4)
  /\ _page (snd r) = Some (page_opened fresh)
  /\ log (snd (close E (snd r))) = CloseBrowser 0%nat :: log (snd r).
Proof.
  intros E r.
  destruct (initialize_failed_navigation_keeps_page Sample.constants E
              "AQEDA" fresh (Failure 4)) as [H1 [H2 [_ H4]]].
  - intros call n Hk. destruct call; try reflexivity.
    exfalso. apply Hk. reflexivity.
  - reflexivity.
  - repeat split; assumption.
Defined.

(** X8: a second [initialize] on a scraper that is already initialized
    launches a second browser and installs its page in place of the
    first; [close] then asks the second browser, and only it, to close.
    When that resolves, the page is forgotten and a further [close] does
    nothing: two browsers launched, one closed. *)
Theorem reinitialize_orphans_first_browser K E cookie1 cookie2 w0 w1 w2 :
  initialize K E cookie1 w0 = (Ok tt, w1) ->
  initialize K E cookie2 w1 = (Ok tt, w2) ->
  let b1 := seen KLaunch (log w0) in
  _page w1 = Some {| page_no := seen KNewPage (log w0);
                     page_browser := Some b1 |}
  /\ _page w2 = Some {| page_no := S (seen KNewPage (log w0));
                        page_browser := Some (S b1) |}
  /\ log (snd (close E w2)) = CloseBrowser (S b1) :: log w2
  /\ seen KLaunch (log (snd (close E w2))) = S (S b1)
  /\ seen KCloseBrowser (log (snd (close E w2)))
     = S (seen KCloseBrowser (log w0))
  /\ (env_unit E (CloseBrowser (S b1)) (seen KCloseBrowser (log w0)) = None ->
      fst (close E w2) = Ok tt
      /\ _page (snd (close E w2)) = None
      /\ close E (snd (close E w2)) = (Ok tt, snd (close E w2))).
Proof.
  intros H1 H2 b1.
  apply initialize_Ok_opened in H1.
  apply initialize_Ok_opened in H2.
  assert (Hp1 : _page w1 = Some {| page_no := seen KNewPage (log w0);
                                   page_browser := Some b1 |})
    by (subst w1; reflexivity).
  assert (Hp2 : _page w2 = Some {| page_no := S (seen KNewPage (log w0));
                                   page_browser := Some (S b1) |}).
  { subst w2 w1. unfold opened, page_opened. cbn [_page log app].
    seen_step. reflexivity. }
  assert (HL : seen KLaunch (log w2) = S (S b1)).
  { subst w2 w1. unfold opened. cbn [log app]. seen_step. reflexivity. }
  assert (HC : seen KCloseBrowser (log w2) = seen KCloseBrowser (log w0)).
  { subst w2 w1. unfold opened. cbn [log app]. seen_step. reflexivity. }
  pose proof (close_run E w2 _ (S b1) Hp2 eq_refl) as Hrun.
  rewrite HC in Hrun. rewrite Hrun.
  split; [exact Hp1|]. split; [exact Hp2|].
  destruct (env_unit E (CloseBrowser (S b1)) (seen KCloseBrowser (log w0)));
    cbn [fst snd push log _page]; seen_step; rewrite HL, HC;
    (split; [reflexivity|]); (split; [reflexivity|]);
    (split; [reflexivity|]).
  - intros Hn. discriminate Hn.
  - intros _. repeat split.
Qed.

Lemma reinitialize_orphans_first_browser_witness :
  let w1 := snd (initialize Sample.constants (Sample.steady true) "A" fresh) in
  let w2 := snd (initialize Sample.constants (Sample.steady true) "B" w1) in
  seen KLaunch (log (snd (close (Sample.steady true) w2))) = 2%nat
  /\ seen KCloseBrowser (log (snd (close (Sample.steady true) w2))) = 1%nat
  /\ close (Sample.steady true) (snd (close (Sample.steady true) w2))
     = (Ok tt, snd (close (Sample.steady true) w2)).
Proof.
  intros w1 w2.
  destruct (reinitialize_orphans_first_browser
              Sample.constants (Sample.steady true) "A" "B" fresh w1 w2)
    as [_ [_ [_ [H4 [H5 H6]]]]].
  - reflexivity.
  - reflexivity.
  - split; [exact H4|]. split; [exact H5|].
    apply H6. reflexivity.
Defined.

(** X9: a [close] that has not thrown puts the scraper back to its
    uninitialized state: after it, [searchJobs] throws the not-initialized
    error and [_paginate] and the convergence pass throw the page error,
    none of them making a call.  A [close] that has thrown has left the
    page in place. *)
Theorem closed_scraper_refuses K E keywords location limit fuel w :
  let w1 := snd (close E w) in
  (fst (close E w) = Ok tt ->
   searchJobs K E keywords location limit fuel w1
   = (Throw (JsError "🔴 Scraper not initialized"), w1)
   /\ _paginate E 25 w1 = (Throw (JsError "🔴 Failed to load page"), w1)
   /\ detect K E fuel w1 = (Throw (JsError "🔴 Failed to load page"), w1))
  /\ (forall e, fst (close E w) = Throw e -> _page w1 = _page w).
Proof.
  intros w1.
  assert (Hcases : (fst (close E w) = Ok tt /\ _page w1 = None)
                   \/ (exists e, fst (close E w) = Throw e
                                 /\ _page w1 = _page w)).
  { subst w1. unfold close. destruct (_page w) as [p|] eqn:Hp.
    - unfold bind, call, set_page.
      destruct (page_browser p) as [b|].
      + destruct (env_unit E (CloseBrowser b) _) as [e|].
        * right. exists e. split; [reflexivity | exact Hp].
        * left. split; reflexivity.
      + left. split; reflexivity.
    - left. split; [reflexivity | exact Hp]. }
  split.
  - intros Hok. destruct Hcases as [[_ Hp] | [e [He _]]];
      [|rewrite Hok in He; discriminate He].
    unfold searchJobs, searchJobs_over, _paginate, detect. rewrite Hp.
    repeat split.
  - intros e He. destruct Hcases as [[Hok _] | [e' [_ Hp]]];
      [rewrite Hok in He; discriminate He | exact Hp].
Qed.

Lemma closed_scraper_refuses_witness :
  let w := snd (initialize Sample.constants (Sample.steady true) "AQEDA"
                           fresh) in
  let w1 := snd (close (Sample.steady true) w) in
  searchJobs Sample.constants (Sample.steady true) "rocq" "Paris" 25 9 w1
  = (Throw (JsError "🔴 Scraper not initialized"), w1)
  /\ _page (snd (close Sample.stuck_browser w)) = _page w.
Proof.
  intros w w1.
  destruct (closed_scraper_refuses Sample.constants (Sample.steady true)
              "rocq" "Paris" 25 9 w) as [H _].
  destruct (closed_scraper_refuses Sample.constants Sample.stuck_browser
              "rocq" "Paris" 25 9 w) as [_ H'].
  split.
  - apply H. reflexivity.
  - apply (H' (Failure 6)). reflexivity.
Defined.

(** ** Searches that do not end well, and the length of those that do *)

Section Steadily.

Variable K : Constants.
Variable E : Env.
Variable p : Page.
Variable c : nat.

Hypothesis resolves : forall call n, env_unit E call n = None.
Hypothesis counts : forall i, env_count E i = Resolve c.

(** A pass on a steady page needs only its own two clock reads to lie
    within the time allowed. *)
Lemma loadJobs_steady_at fuel w :
  _page w = Some p ->
  env_now E (S (seen KNow (log w))) - env_now E (seen KNow (log w)) <= 30000 ->
  _loadJobs K E (S fuel) w
  = (Ok {| success := true; totalJobs := c |}, loaded K p w).
Proof.
  intros Hp Hnow.
  change (_loadJobs K E (S fuel) w)
    with (attempts E (detect K E (S fuel)) loadJobsConfig
                   (env_now E (seen KNow (log w))) 2 (push Now w)).
  apply attempts_Ok.
  - apply (detect_steady K E p c resolves counts). exact Hp.
  - unfold late. apply Z.ltb_ge.
    replace (seen KNow (log (turn K p (counted K p (push Now w)))))
      with (S (seen KNow (log w))); [exact Hnow|].
    unfold turn, counted, logged. cbn [push log app]. seen_step.
    rewrite seen_app, seen_rev. unfold waits.
    rewrite seen_waits by discriminate. seen_step. reflexivity.
Qed.

Lemma searchLoop_cycle_at f0 f limit P w res :
  _page w = Some p ->
  P < limit ->
  env_now E (S (seen KNow (log w))) - env_now E (seen KNow (log w)) <= 30000 ->
  env_extract E (seen KExtract (log w)) = Resolve res ->
  searchLoop E (_loadJobs K E (S f0)) p (S f) limit P w
  = if limit <=? P + Z.of_nat (List.length res)
    then (Ok None,
          captured p "🟢 Job limit reached" (extracted p c res (loaded K p w)))
    else searchLoop E (_loadJobs K E (S f0)) p f limit
                    (P + Z.of_nat (List.length res))
                    (paged E p (extracted p c res (loaded K p w))).
Proof.
  intros Hp HP Hnow Hres. cbn [searchLoop].
  apply Z.ltb_lt in HP. rewrite HP.
  rewrite (bind_Ok _ _ _ _ _ (loadJobs_steady_at f0 w Hp Hnow)).
  unfold bind at 1, emit. cbn [success negb totalJobs].
  rewrite (bind_Ok _ _ _ res
             (push (Extract p) (push (Console (LogTotal c)) (loaded K p w)))).
  2:{ unfold extractJobCardsData, ask. cbn [kind_of push log].
      seen_step. unfold loaded, turn, counted, logged. cbn [push log app].
      seen_step. rewrite seen_app, seen_rev.
      unfold waits. rewrite seen_waits by discriminate.
      seen_step. cbn [Nat.add]. rewrite Hres. reflexivity. }
  unfold bind at 1.
  change (push (Console (LogJobs res))
            (push (Extract p) (push (Console (LogTotal c)) (loaded K p w))))
    with (extracted p c res (loaded K p w)).
  destruct (limit <=? P + Z.of_nat (List.length res)).
  - rewrite (bind_Ok _ _ _ tt
               (captured p "🟢 Job limit reached"
                         (extracted p c res (loaded K p w)))).
    + reflexivity.
    + apply takeScreenshot_steady; [exact resolves | exact Hp].
  - rewrite (bind_Ok _ _ _ tt (paged E p (extracted p c res (loaded K p w)))).
    + reflexivity.
    + apply paginate_steady; [exact resolves | exact Hp].
Qed.

Lemma searchLoop_empty f0 limit :
  (forall i, env_extract E i = Resolve []) ->
  forall f P w,
    _page w = Some p ->
    P < limit ->
    (forall j, env_now E (S (seen KNow (log w) + 2 * j))
               - env_now E (seen KNow (log w) + 2 * j)%nat <= 30000) ->
    exists new,
      searchLoop E (_loadJobs K E (S f0)) p f limit P w
      = (OutOfFuel,
         {| _page := _page w; _screenshotCount := _screenshotCount w;
            log := new ++ log w |})
      /\ seen KReadUrl new = f
      /\ seen KExtract new = f.
Proof.
  intros Hext. induction f as [|f IH]; intros P w Hp HP Hnow.
  - exists []. cbn [searchLoop]. apply Z.ltb_lt in HP. rewrite HP.
    destruct w. repeat split.
  - rewrite (searchLoop_cycle_at f0 f limit P w [] Hp HP).
    2:{ specialize (Hnow 0%nat).
        rewrite Nat.mul_0_r, Nat.add_0_r in Hnow. exact Hnow. }
    2:{ apply Hext. }
    cbn [List.length Z.of_nat]. rewrite Z.add_0_r.
    replace (limit <=? P) with false by (symmetry; apply Z.leb_gt; exact HP).
    destruct (seen_cycle_calls K p c []) as [C1 [C2 [_ [_ C5]]]].
    destruct (IH P (paged E p (extracted p c [] (loaded K p w))) Hp HP)
      as [new [Hrun [N1 N2]]].
    { intros j. unfold paged, logged. cbn [log app]. seen_step.
      rewrite (log_extracted K p c), seen_app, C5.
      specialize (Hnow (S j)).
      replace (2 + seen KNow (log w) + 2 * j)%nat
        with (seen KNow (log w) + 2 * S j)%nat by lia.
      exact Hnow. }
    exists (new ++ Goto p (URL_toString
                             (advance E
                                (env_url E
                                   (seen KReadUrl
                                      (log (extracted p c []
                                              (loaded K p w))))) 25))
                        (Some "load")
                :: ReadUrl p :: cycle_calls K p c [])%list.
    split; [|split].
    + rewrite Hrun. unfold paged, logged. cbn [_page _screenshotCount log app].
      rewrite (log_extracted K p c), <- app_assoc. reflexivity.
    + rewrite seen_app. seen_step. rewrite N1, C2. lia.
    + rewrite seen_app. seen_step. rewrite N2, C1. lia.
Qed.

End Steadily.

(** X10: on a steady page whose extractions all come back empty, with
    each convergence pass ending within its 30 seconds (however far the
    clock moves on over the run), a search with a positive limit never
    ends: whatever the fuel, it is used up, with one extraction and one
    pagination for each unit of it. *)
Theorem searchJobs_empty_batches_never_end K E p c keywords location limit
        fuel w :
  (forall call n, env_unit E call n = None) ->
  (forall i, env_count E i = Resolve c) ->
  (forall j, env_now E (S (seen KNow (log w) + 2 * j))
             - env_now E (seen KNow (log w) + 2 * j)%nat <= 30000) ->
  (forall i, env_extract E i = Resolve []) ->
  _page w = Some p ->
  0 < limit ->
  exists w',
    searchJobs K E keywords location limit fuel w = (OutOfFuel, w')
    /\ during KExtract w w' = fuel
    /\ during KReadUrl w w' = fuel.
Proof.
  intros Hunit Hcount Hnow Hext Hp Hl.
  assert (Hloop : exists new,
             searchLoop E (_loadJobs K E fuel) p fuel limit 0
               (captured p "Search jobs page"
                  (push (Goto p (searchUrl K keywords location) (Some "load"))
                        w))
             = (OutOfFuel,
                {| _page := _page w;
                   _screenshotCount := S (_screenshotCount w);
                   log := new
                          ++ [Screenshot p
                                (screenshot_path (_screenshotCount w)) true;
                              Console (LogText "📷 Search jobs page");
                              Goto p (searchUrl K keywords location)
                                   (Some "load")]
                          ++ log w |})
             /\ seen KReadUrl new = fuel /\ seen KExtract new = fuel).
  { destruct fuel as [|f0].
    - exists []. cbn [searchLoop]. apply Z.ltb_lt in Hl. rewrite Hl.
      repeat split.
    - destruct (searchLoop_empty K E p c Hunit Hcount f0 limit Hext
                  (S f0) 0
                  (captured p "Search jobs page"
                     (push (Goto p (searchUrl K keywords location)
                                 (Some "load")) w)) Hp Hl)
        as [new [Hrun HN]].
      + intros j. unfold captured, push. cbn [log]. seen_step. apply Hnow.
      + exists new. split; [|exact HN]. rewrite Hrun. reflexivity. }
  destruct Hloop as [new [Hrun [N1 N2]]].
  eexists. split.
  - unfold searchJobs, searchJobs_over. rewrite Hp.
    rewrite (bind_Ok _ _ _ tt
               (push (Goto p (searchUrl K keywords location) (Some "load")) w))
      by (apply call_run, Hunit).
    rewrite (bind_Ok _ _ _ tt
               (captured p "Search jobs page"
                  (push (Goto p (searchUrl K keywords location) (Some "load"))
                        w)))
      by (apply takeScreenshot_steady; [exact Hunit | exact Hp]).
    unfold bind. rewrite Hrun. reflexivity.
  - assert (Hlog : forall l1 l2 l3 : list Call,
               (l1 ++ l2 ++ l3 = (l1 ++ l2) ++ l3)%list)
      by (intros; apply app_assoc).
    split; (erewrite during_logged by (cbn [log]; apply Hlog));
      rewrite seen_app; seen_step; change (seen ?k []) with 0%nat; lia.
Qed.

Lemma searchJobs_empty_batches_never_end_witness :
  exists w',
    searchJobs Sample.constants Sample.ticking "rocq" "Paris" 25 40
               Sample.ready
    = (OutOfFuel, w')
    /\ during KExtract Sample.ready w' = 40%nat
    /\ during KReadUrl Sample.ready w' = 40%nat.
Proof.
  apply (searchJobs_empty_batches_never_end Sample.constants Sample.ticking
           Sample.a_page 7).
  - intros call n. reflexivity.
  - intros i. reflexivity.
  - intros j. cbn [Sample.ticking env_now Sample.ready log seen filter
                   List.length Nat.add]. lia.
  - intros i. reflexivity.
  - reflexivity.
  - lia.
Defined.

(** X11: when the first extraction rejects, the search throws that
    rejection straight after the extraction call: the records of no batch
    are printed, no pagination is made, and the only capture of the run is
    the one of the search page, none being taken for the failure. *)
Theorem searchJobs_extraction_failure K E p c keywords location limit fuel w e :
  (forall call n, env_unit E call n = None) ->
  (forall i, env_count E i = Resolve c) ->
  (forall i j, env_now E j - env_now E i <= 30000) ->
  env_extract E (seen KExtract (log w)) = Reject e ->
  _page w = Some p ->
  0 < limit ->
  let w0 := captured p "Search jobs page"
              (push (Goto p (searchUrl K keywords location) (Some "load")) w) in
  searchJobs K E keywords location limit (S fuel) w
  = (Throw e,
     push (Extract p) (push (Console (LogTotal c)) (loaded K p w0)))
  /\ during KScreenshot w (loaded K p w0) = 1%nat
  /\ during KReadUrl w (loaded K p w0) = 0%nat.
Proof.
  intros Hunit Hcount Hnow Hext Hp Hl w0. split.
  - unfold searchJobs, searchJobs_over. rewrite Hp.
    rewrite (bind_Ok _ _ _ tt
               (push (Goto p (searchUrl K keywords location) (Some "load")) w))
      by (apply call_run, Hunit).
    rewrite (bind_Ok _ _ _ tt w0)
      by (apply takeScreenshot_steady; [exact Hunit | exact Hp]).
    assert (Hloop : searchLoop E (_loadJobs K E (S fuel)) p (S fuel) limit 0 w0
                    = (Throw e,
                       push (Extract p)
                            (push (Console (LogTotal c)) (loaded K p w0)))).
    { cbn [searchLoop]. apply Z.ltb_lt in Hl. rewrite Hl.
      rewrite (bind_Ok _ _ _ _ _
                 (loadJobs_steady K E p c Hunit Hcount Hnow fuel w0 Hp)).
      unfold bind at 1, emit. cbn [success negb totalJobs].
      apply bind_Throw.
      unfold extractJobCardsData, ask. cbn [kind_of push log].
      seen_step. unfold loaded, turn, counted, logged, w0, captured.
      cbn [push log app]. seen_step. rewrite seen_app, seen_rev.
      unfold waits. rewrite seen_waits by discriminate.
      seen_step. cbn [Nat.add]. rewrite Hext. reflexivity. }
    apply bind_Throw. exact Hloop.
  - assert (Hlog : log (loaded K p w0)
                   = ((Now :: Count p (SEL_jobs K) :: WaitForTimeout p 200
                       :: ScrollIntoView p (SEL_jobs K)
                       :: Count p (SEL_jobs K)
                       :: rev (waits K p)
                       ++ [Now;
                           Screenshot p
                             (screenshot_path (_screenshotCount w)) true;
                           Console (LogText "📷 Search jobs page");
                           Goto p (searchUrl K keywords location)
                                (Some "load")])
                      ++ log w)%list).
    { unfold loaded, turn, counted, logged, w0, captured, push.
      cbn [log app]. rewrite <- app_assoc. reflexivity. }
    rewrite !(during_logged _ _ _ _ Hlog).
    seen_step. rewrite !seen_app, !seen_rev. unfold waits.
    rewrite !seen_waits by discriminate. seen_step. split; reflexivity.
Qed.

Lemma searchJobs_extraction_failure_witness :
  let E := {| env_unit := fun _ _ => None;
              env_visible := fun _ => Resolve true;
              env_count := fun _ => Resolve 7%nat;
              env_extract := fun _ => Reject (Failure 5);
              env_url := fun _ => Sample.page_at "0";
              env_now := fun _ => 0;
              env_inexact := fun _ _ => "" |} in
  fst (searchJobs Sample.constants E "rocq" "Paris" 25 3 Sample.ready)
  = Throw (Failure 5).
Proof.
  intros E.
  destruct (searchJobs_extraction_failure Sample.constants E Sample.a_page 7
              "rocq" "Paris" 25 2 Sample.ready (Failure 5)) as [H _].
  - intros call n. reflexivity.
  - intros i. reflexivity.
  - intros i j. simpl. lia.
  - reflexivity.
  - reflexivity.
  - lia.
  - rewrite H. reflexivity.
Defined.

(** X12: on a steady page where every extraction gives [k > 0] records, a
    search with a positive limit ends well after [ceil(limit / k)] cycles:
    that many convergence passes and extractions, one pagination fewer,
    and two captures (the search page and the reached limit). *)
Theorem searchJobs_cycles K E p c k keywords location limit fuel w :
  (forall call n, env_unit E call n = None) ->
  (forall i, env_count E i = Resolve c) ->
  (forall i j, env_now E j - env_now E i <= 30000) ->
  (forall i, match env_extract E i with
             | Resolve res => List.length res = k
             | Reject _ => False
             end) ->
  (0 < k)%nat ->
  _page w = Some p ->
  0 < limit ->
  let cycles := Z.to_nat ((limit + Z.of_nat k - 1) / Z.of_nat k) in
  (cycles <= fuel)%nat ->
  exists w',
    searchJobs K E keywords location limit fuel w = (Ok Undefined, w')
    /\ during KExtract w w' = cycles
    /\ during KReadUrl w w' = (cycles - 1)%nat
    /\ during KNow w w' = (2 * cycles)%nat
    /\ during KScreenshot w w' = 2%nat
    /\ _screenshotCount w' = S (S (_screenshotCount w)).
Proof.
  intros Hunit Hcount Hnow Hext Hk Hp Hl cycles Hfuel.
  assert (Hdiv : (limit + Z.of_nat k - 1) / Z.of_nat k
                 = (limit - 1) / Z.of_nat k + 1).
  { replace (limit + Z.of_nat k - 1) with (limit - 1 + 1 * Z.of_nat k) by lia.
    apply Z.div_add. lia. }
  assert (Hq : 0 <= (limit - 1) / Z.of_nat k) by (apply Z.div_pos; lia).
  assert (Hc : cycles = S (Z.to_nat ((limit - 1) / Z.of_nat k))).
  { unfold cycles. rewrite Hdiv. rewrite Z2Nat.inj_add by lia.
    change (Z.to_nat 1) with 1%nat. lia. }
  destruct (searchJobs_steady K E p c Hunit Hcount Hnow k limit Hext Hk
              keywords location
              (Z.to_nat ((limit - 1) / Z.of_nat k)) fuel w Hp)
    as [new [Hrun [[N1 [N2 [N3 [N4 N5]]]] _]]].
  - rewrite Z2Nat.id by exact Hq.
    pose proof (Z.mul_div_le (limit - 1) (Z.of_nat k) ltac:(lia)). lia.
  - rewrite Nat2Z.inj_succ, Z2Nat.id by exact Hq.
    pose proof (Z.mul_succ_div_gt (limit - 1) (Z.of_nat k) ltac:(lia)). lia.
  - lia.
  - eexists. split; [exact Hrun|].
    match goal with
    | |- context [during _ w ?w1] =>
        assert (Hlog : log w1
                       = ((Console LogCache
                           :: new
                           ++ [Screenshot p
                                 (screenshot_path (_screenshotCount w)) true;
                               Console (LogText "📷 Search jobs page");
                               Goto p (searchUrl K keywords location)
                                    (Some "load")])
                          ++ log w)%list)
          by (cbn [log app]; rewrite <- app_assoc; reflexivity)
    end.
    rewrite !(during_logged _ _ _ _ Hlog).
    seen_step. rewrite !seen_app. seen_step.
    change (seen ?kd []) with 0%nat.
    rewrite N1, N2, N4, N5, Hc. cbn [_screenshotCount].
    repeat split; lia.
Qed.

Lemma searchJobs_cycles_witness :
  exists w',
    searchJobs Sample.constants (Sample.steady true) "rocq" "Paris" 95 10
               Sample.ready = (Ok Undefined, w')
    /\ during KExtract Sample.ready w' = 10%nat
    /\ during KReadUrl Sample.ready w' = 9%nat.
Proof.
  destruct (searchJobs_cycles Sample.constants (Sample.steady true)
              Sample.a_page 7 10 "rocq" "Paris" 95 10 Sample.ready)
    as [w' [Hrun [H1 [H2 _]]]].
  - intros call n. reflexivity.
  - intros i. reflexivity.
  - intros i j. simpl. lia.
  - intros i. reflexivity.
  - lia.
  - reflexivity.
  - lia.
  - vm_compute. lia.
  - exists w'. repeat split; assumption.
Defined.

Lemma plain_encoded_char ch :
  all_plain (if Text.is_alnum ch || Text.one_of "-_.!~*'()" ch
             then String ch "" else Text.percent ch) = true.
Proof.
  destruct ch as [[|] [|] [|] [|] [|] [|] [|] [|]]; reflexivity.
Qed.

Lemma all_plain_app a b :
  all_plain (a ++ b) = all_plain a && all_plain b.
Proof.
  unfold all_plain. induction a as [|x a IH]; cbn [append list_ascii_of_string forallb].
  - reflexivity.
  - rewrite IH. apply andb_assoc.
Qed.

(** X13: the keywords and the location enter the search address through
    [encodeURIComponent], so whatever they contain, their encoded forms
    consist of letters, digits and [-_.!~*'()%] only: no [&], [=], [?],
    [#], [+] or blank of theirs can add or split a parameter. *)
Theorem searchUrl_parameters_are_plain K keywords location :
  exists k l,
    searchUrl K keywords location
    = LI_jobsSearch K ++ "?keywords=" ++ k ++ "&location=" ++ l
    /\ all_plain k = true
    /\ all_plain l = true
    /\ all_plain "&" = false /\ all_plain "=" = false
    /\ all_plain "?" = false /\ all_plain "#" = false
    /\ all_plain "+" = false /\ all_plain " " = false.
Proof.
  assert (H : forall s, all_plain (Text.encodeURIComponent s) = true).
  { induction s as [|ch s IH]; [reflexivity|].
    cbn [Text.encodeURIComponent].
    rewrite all_plain_app, IH, plain_encoded_char. reflexivity. }
  exists (Text.encodeURIComponent keywords),
         (Text.encodeURIComponent location).
  split; [reflexivity|]. repeat split; try apply H.
Qed.
